(** * The asynchronous global endpoint manager of azure-cosmos

    A shallow embedding of
    [sdk/cosmos/azure-cosmos/azure/cosmos/aio/_global_endpoint_manager_async.py]
    (class [_GlobalEndpointManager]) and the properties of its refresh and
    failover protocol.

    The manager is stateful and fallible, so its coroutines are embedded in
    a state-and-exception monad over a [State] that holds the manager object
    ([self]), the environment it talks to (network and clock), the event
    loop's task table and the logger's records.  The Location Cache, the
    client's account fetch, the clock and the module constants live outside
    this file of the SDK; they enter as interfaces (type classes), and every
    theorem holds for all their implementations. *)

From Stdlib Require Import List ZArith Ascii String Bool Lia Permutation.
Import ListNotations.
Local Open Scope Z_scope.

Set Implicit Arguments.

(** ** Values *)

(** Endpoints are URIs ([str]) and locations are region names ([str]). *)
Definition endpoint := string.
Definition location := string.

(** The exceptions the manager's handlers tell apart:
    [except (exceptions.CosmosHttpResponseError, AzureError)] catches the
    first two, [except (Exception, asyncio.CancelledError)] all three. *)
Inductive exn : Type :=
| CosmosHttpResponseError
| AzureError
| CancelledError.

Definition is_cosmos_or_azure_error (e : exn) : bool :=
  match e with
  | CosmosHttpResponseError | AzureError => true
  | CancelledError => false
  end.

(** What an awaited call of a collaborator gives back. *)
Inductive response (A : Type) : Type :=
| Success (a : A)
| Failure (e : exn).
Arguments Success {A} a.
Arguments Failure {A} e.

(** A task of the event loop: still to finish, or done with its result. *)
Inductive TaskStatus : Type :=
| Running
| Done (r : response unit).

Definition task_id := nat.

(** A coroutine run returns, raises, or parks on a resource it has to wait
    for (a held lock, an unfinished task). *)
Inductive outcome (A : Type) : Type :=
| Return (a : A)
| Raise (e : exn)
| Suspended.
Arguments Return {A} a.
Arguments Raise {A} e.
Arguments Suspended {A}.

(** ** Collaborators *)

Module ConnectionPolicy.
Record t : Type := mk { PreferredLocations : list location }.
End ConnectionPolicy.

Record Client : Type := mkClient {
  url_connection : endpoint;
  connection_policy : ConnectionPolicy.t
}.

(** The part of [_constants._Constants] the manager reads. *)
Class Constants : Type := {
  DefaultEndpointsRefreshTime : Z
}.

Module LocationCache.
(** The interface of [.._location_cache.LocationCache] that the manager
    consumes.  The cache is built from the default endpoint and the
    connection policy only: it holds no reference to the manager. *)
Class Ops (LC DatabaseAccount : Type) : Type := {
  new : endpoint -> ConnectionPolicy.t -> LC;
  mark_endpoint_available : endpoint -> LC -> LC;
  mark_endpoint_unavailable_for_read : endpoint -> bool -> LC -> LC;
  mark_endpoint_unavailable_for_write : endpoint -> bool -> LC -> LC;
  perform_on_database_account_read : DatabaseAccount -> LC -> LC;
  update_location_cache : LC -> LC;
  should_refresh_endpoints : LC -> bool;
  endpoints_to_health_check : LC -> list endpoint;
  GetLocationalEndpoint : endpoint -> location -> endpoint
}.
End LocationCache.

(** The world outside the manager: the client's two account requests, the
    clock of [.._utils.current_time_millis], and the order in which the
    event loop completes a batch of requests awaited by [asyncio.gather]
    (every request of the batch completes exactly once). *)
Class Environment (Env DatabaseAccount : Type) : Type := {
  GetDatabaseAccount : endpoint -> Env -> response DatabaseAccount * Env;
  _GetDatabaseAccountCheck : endpoint -> Env -> response unit * Env;
  current_time_millis : Env -> Z;
  completion_order : list endpoint -> Env -> list endpoint;
  completion_order_perm :
    forall l env, Permutation l (completion_order l env)
}.

(** ** The manager object and the program state *)

Section Manager.

Context {LC Env DatabaseAccount : Type}.
Context {constants : Constants}.
Context {cache_ops : LocationCache.Ops LC DatabaseAccount}.
Context {environment : Environment Env DatabaseAccount}.

(** The attributes [__init__] creates ([self.client] is reached through the
    environment).  [refresh_lock] is [true] while the [asyncio.Lock] is
    held; [refresh_task] is a handle into the event loop's task table. *)
Record _GlobalEndpointManager : Type := mkManager {
  PreferredLocations : list location;
  DefaultEndpoint : endpoint;
  refresh_time_interval_in_ms : Z;
  location_cache : LC;
  startup : bool;
  refresh_task : option task_id;
  refresh_needed : bool;
  refresh_lock : bool;
  last_refresh_time : Z;
  _database_account_cache : option DatabaseAccount
}.

Record State : Type := mkState {
  self : _GlobalEndpointManager;
  env : Env;
  tasks : list TaskStatus;
  log : list exn
}.

(** Attribute assignments. *)
Definition with_location_cache (c : LC) (m : _GlobalEndpointManager) :=
  mkManager (PreferredLocations m) (DefaultEndpoint m)
    (refresh_time_interval_in_ms m) c (startup m) (refresh_task m)
    (refresh_needed m) (refresh_lock m) (last_refresh_time m)
    (_database_account_cache m).

Definition with_startup (b : bool) (m : _GlobalEndpointManager) :=
  mkManager (PreferredLocations m) (DefaultEndpoint m)
    (refresh_time_interval_in_ms m) (location_cache m) b (refresh_task m)
    (refresh_needed m) (refresh_lock m) (last_refresh_time m)
    (_database_account_cache m).

Definition with_refresh_task (t : option task_id) (m : _GlobalEndpointManager) :=
  mkManager (PreferredLocations m) (DefaultEndpoint m)
    (refresh_time_interval_in_ms m) (location_cache m) (startup m) t
    (refresh_needed m) (refresh_lock m) (last_refresh_time m)
    (_database_account_cache m).

Definition with_refresh_needed (b : bool) (m : _GlobalEndpointManager) :=
  mkManager (PreferredLocations m) (DefaultEndpoint m)
    (refresh_time_interval_in_ms m) (location_cache m) (startup m)
    (refresh_task m) b (refresh_lock m) (last_refresh_time m)
    (_database_account_cache m).

Definition with_refresh_lock (b : bool) (m : _GlobalEndpointManager) :=
  mkManager (PreferredLocations m) (DefaultEndpoint m)
    (refresh_time_interval_in_ms m) (location_cache m) (startup m)
    (refresh_task m) (refresh_needed m) b (last_refresh_time m)
    (_database_account_cache m).

Definition with_last_refresh_time (z : Z) (m : _GlobalEndpointManager) :=
  mkManager (PreferredLocations m) (DefaultEndpoint m)
    (refresh_time_interval_in_ms m) (location_cache m) (startup m)
    (refresh_task m) (refresh_needed m) (refresh_lock m) z
    (_database_account_cache m).

Definition with_database_account_cache (d : option DatabaseAccount)
    (m : _GlobalEndpointManager) :=
  mkManager (PreferredLocations m) (DefaultEndpoint m)
    (refresh_time_interval_in_ms m) (location_cache m) (startup m)
    (refresh_task m) (refresh_needed m) (refresh_lock m)
    (last_refresh_time m) d.

Definition on_self (f : _GlobalEndpointManager -> _GlobalEndpointManager)
    (s : State) : State :=
  mkState (f (self s)) (env s) (tasks s) (log s).

Definition with_env (e : Env) (s : State) : State :=
  mkState (self s) e (tasks s) (log s).

Definition with_tasks (ts : list TaskStatus) (s : State) : State :=
  mkState (self s) (env s) ts (log s).

Definition with_log (l : list exn) (s : State) : State :=
  mkState (self s) (env s) (tasks s) l.

(** ** The coroutine monad *)

Definition M (A : Type) : Type := State -> outcome A * State.

Definition ret {A} (a : A) : M A := fun s => (Return a, s).

Definition bind {A B} (c : M A) (k : A -> M B) : M B :=
  fun s =>
    match c s with
    | (Return a, s') => k a s'
    | (Raise e, s') => (Raise e, s')
    | (Suspended, s') => (Suspended, s')
    end.

Definition raise {A} (e : exn) : M A := fun s => (Raise e, s).

Definition gets {A} (f : State -> A) : M A := fun s => (Return (f s), s).

Definition modify (f : State -> State) : M unit := fun s => (Return tt, f s).

(** [try: body except ... as e: handler e]; a handler that does not match
    re-raises. *)
Definition try_except {A} (body : M A) (handler : exn -> M A) : M A :=
  fun s =>
    match body s with
    | (Raise e, s') => handler e s'
    | r => r
    end.

Notation "x <- c ;; k" := (bind c (fun x => k))
  (at level 61, c at next level, right associativity).
Notation "c ;; k" := (bind c (fun _ => k))
  (at level 61, right associativity).

Definition attr {A} (f : _GlobalEndpointManager -> A) : M A :=
  gets (fun s => f (self s)).

Definition assign (f : _GlobalEndpointManager -> _GlobalEndpointManager)
  : M unit := modify (on_self f).

(** An awaited request of the client: the environment answers and moves. *)
Definition await_client {A} (call : Env -> response A * Env) : M A :=
  fun s =>
    match call (env s) with
    | (Success a, env') => (Return a, with_env env' s)
    | (Failure e, env') => (Raise e, with_env env' s)
    end.

(** ** Event loop, lock and logger *)

Definition task_status (t : task_id) (s : State) : option TaskStatus :=
  nth_error (tasks s) t.

(** [task.done()] *)
Definition task_done (t : task_id) : M bool :=
  gets (fun s => match task_status t s with
                 | Some (Done _) => true
                 | _ => false
                 end).

(** [await task]: a finished task hands over its result or re-raises its
    exception without suspending. *)
Definition await_task (t : task_id) : M unit :=
  fun s =>
    match task_status t s with
    | Some (Done (Success _)) => (Return tt, s)
    | Some (Done (Failure e)) => (Raise e, s)
    | _ => (Suspended, s)
    end.

(** [asyncio.create_task(coro)]: the task is entered in the loop's table,
    to run once the current coroutine yields; the handle is returned. *)
Definition create_task : M task_id :=
  fun s => (Return (List.length (tasks s)), with_tasks (tasks s ++ [Running]) s).

(** [async with self.refresh_lock: body].  A free lock is taken without
    suspending and released when the body returns or raises; a held lock
    parks the caller. *)
Definition async_with_refresh_lock {A} (body : M A) : M A :=
  fun s =>
    if refresh_lock (self s) then (Suspended, s)
    else
      match body (on_self (with_refresh_lock true) s) with
      | (Suspended, s') => (Suspended, s')
      | (r, s') => (r, on_self (with_refresh_lock false) s')
      end.

(** [logger.exception("Health check task failed: %s", exception)] *)
Definition logger_exception (exception : exn) : M unit :=
  modify (fun s => with_log (log s ++ [exception]) s).

(** [asyncio.gather] of the coroutines under cooperative scheduling: the
    coroutines settle one after the other, in the order they are given
    here (the completion order of their requests).  This is what [gather]
    does as long as no exception escapes a coroutine.  When one does, the
    awaiter is raised that exception at once, as here; the coroutines that
    have not settled yet keep running in the loop afterwards, which this
    definition does not follow: nothing is stated below about a round in
    which an exception escapes a probe of the batch. *)
Fixpoint gather (coros : list (M unit)) : M unit :=
  match coros with
  | [] => ret tt
  | c :: rest => c ;; gather rest
  end.

(** ** The methods of [_GlobalEndpointManager] *)

Definition get_refresh_time_interval_in_ms_stub : Z :=
  DefaultEndpointsRefreshTime.

Definition __init__ (client : Client) : _GlobalEndpointManager :=
  {| PreferredLocations :=
       ConnectionPolicy.PreferredLocations (connection_policy client);
     DefaultEndpoint := url_connection client;
     refresh_time_interval_in_ms := get_refresh_time_interval_in_ms_stub;
     location_cache :=
       LocationCache.new (url_connection client) (connection_policy client);
     startup := true;
     refresh_task := None;
     refresh_needed := false;
     refresh_lock := false;
     last_refresh_time := 0;
     _database_account_cache := None |}.

Definition on_location_cache (f : LC -> LC) : M unit :=
  assign (fun m => with_location_cache (f (location_cache m)) m).

Definition mark_endpoint_unavailable_for_read (endpoint : endpoint)
    (refresh_cache : bool) : M unit :=
  on_location_cache
    (LocationCache.mark_endpoint_unavailable_for_read endpoint refresh_cache).

Definition mark_endpoint_unavailable_for_write (endpoint : endpoint)
    (refresh_cache : bool) : M unit :=
  on_location_cache
    (LocationCache.mark_endpoint_unavailable_for_write endpoint refresh_cache).

Definition update_location_cache : M unit :=
  on_location_cache LocationCache.update_location_cache.

Definition _GetDatabaseAccountStub (endpoint : endpoint) : M DatabaseAccount :=
  await_client (GetDatabaseAccount endpoint).

(** The [for location_name in self.PreferredLocations] loop of
    [_GetDatabaseAccount]: [Some] is its [return], [None] falling out of
    the loop. *)
Fixpoint for_location_name (locations : list location)
  : M (option (DatabaseAccount * endpoint)) :=
  match locations with
  | [] => ret None
  | location_name :: rest =>
      default <- attr DefaultEndpoint ;;
      let locational_endpoint :=
        LocationCache.GetLocationalEndpoint default location_name in
      try_except
        (database_account <- _GetDatabaseAccountStub locational_endpoint ;;
         assign (with_database_account_cache (Some database_account)) ;;
         on_location_cache
           (LocationCache.mark_endpoint_available locational_endpoint) ;;
         ret (Some (database_account, locational_endpoint)))
        (fun e =>
           if is_cosmos_or_azure_error e then
             mark_endpoint_unavailable_for_read locational_endpoint false ;;
             mark_endpoint_unavailable_for_write locational_endpoint false ;;
             for_location_name rest
           else raise e)
  end.

(** The bare [raise] that ends the outer handler re-raises the exception
    of the default endpoint. *)
Definition _GetDatabaseAccount : M (DatabaseAccount * endpoint) :=
  default <- attr DefaultEndpoint ;;
  try_except
    (database_account <- _GetDatabaseAccountStub default ;;
     assign (with_database_account_cache (Some database_account)) ;;
     on_location_cache (LocationCache.mark_endpoint_available default) ;;
     ret (database_account, default))
    (fun e =>
       if is_cosmos_or_azure_error e then
         mark_endpoint_unavailable_for_read default false ;;
         mark_endpoint_unavailable_for_write default false ;;
         locations <- attr PreferredLocations ;;
         found <- for_location_name locations ;;
         match found with
         | Some result => ret result
         | None => raise e
         end
       else raise e).

Definition _database_account_check (endpoint : endpoint) : M unit :=
  try_except
    (await_client (_GetDatabaseAccountCheck endpoint) ;;
     on_location_cache (LocationCache.mark_endpoint_available endpoint))
    (fun e =>
       if is_cosmos_or_azure_error e then
         mark_endpoint_unavailable_for_read endpoint false ;;
         mark_endpoint_unavailable_for_write endpoint false
       else raise e).

Definition _endpoints_health_check : M unit :=
  account <- _GetDatabaseAccount ;;
  let '(database_account, attempted_endpoint) := account in
  on_location_cache
    (LocationCache.perform_on_database_account_read database_account) ;;
  endpoints <- attr (fun m =>
    LocationCache.endpoints_to_health_check (location_cache m)) ;;
  let database_account_checks :=
    filter (fun endpoint => negb (String.eqb endpoint attempted_endpoint))
      endpoints in
  settled <- gets (fun s => completion_order database_account_checks (env s)) ;;
  gather (map _database_account_check settled) ;;
  update_location_cache.

Definition _refresh_endpoint_list_private
    (database_account : option DatabaseAccount) : M unit :=
  in_startup <- attr startup ;;
  match database_account, in_startup with
  | Some account, false =>
      on_location_cache
        (LocationCache.perform_on_database_account_read account) ;;
      assign (with_refresh_needed false) ;;
      now <- gets (fun s => current_time_millis (env s)) ;;
      assign (with_last_refresh_time now)
  | _, _ =>
      should_refresh <- attr (fun m =>
        LocationCache.should_refresh_endpoints (location_cache m)) ;;
      needed <- attr refresh_needed ;;
      if should_refresh || needed then
        assign (with_refresh_needed false) ;;
        now <- gets (fun s => current_time_millis (env s)) ;;
        assign (with_last_refresh_time now) ;;
        in_startup <- attr startup ;;
        if negb in_startup then
          task <- create_task ;;
          assign (with_refresh_task (Some task))
        else
          _endpoints_health_check ;;
          assign (with_startup false)
      else ret tt
  end.

(** [refresh_endpoint_list], lines 104-109: the finished background task
    is awaited inside [try]; the handle is reset after the [await], in the
    [try] body. *)
Definition harvest_refresh_task : M unit :=
  handle <- attr refresh_task ;;
  match handle with
  | Some task =>
      finished <- task_done task ;;
      if finished then
        try_except
          (await_task task ;;
           assign (with_refresh_task None))
          (fun exception => logger_exception exception)
      else ret tt
  | None => ret tt
  end.

(** Lines 110-111. *)
Definition check_staleness : M unit :=
  now <- gets (fun s => current_time_millis (env s)) ;;
  last <- attr last_refresh_time ;;
  interval <- attr refresh_time_interval_in_ms ;;
  if now - last >? interval then assign (with_refresh_needed true)
  else ret tt.

(** The body of the [async with], lines 115-120 ([except Exception as e:
    raise e] re-raises what it catches). *)
Definition refresh_under_lock (database_account : option DatabaseAccount)
  : M unit :=
  needed <- attr refresh_needed ;;
  if negb needed then ret tt
  else _refresh_endpoint_list_private database_account.

(** Lines 112-120. *)
Definition refresh_if_needed (database_account : option DatabaseAccount)
  : M unit :=
  needed <- attr refresh_needed ;;
  if needed then async_with_refresh_lock (refresh_under_lock database_account)
  else ret tt.


Definition refresh_endpoint_list (database_account : option DatabaseAccount)
  : M unit :=
  harvest_refresh_task ;;
  check_staleness ;;
  refresh_if_needed database_account.

Definition force_refresh_on_startup
    (database_account : option DatabaseAccount) : M unit :=
  assign (with_refresh_needed true) ;;
  refresh_endpoint_list database_account ;;
  assign (with_startup false).

(** ** The event loop running a background task *)

Definition settle_task (t : task_id) (r : response unit) (s : State) : State :=
  with_tasks (firstn t (tasks s) ++ Done r :: skipn (S t) (tasks s)) s.

(** The loop runs the task created at line 134, the coroutine
    [self._endpoints_health_check()], to its end and records how it ended. *)
Definition run_refresh_task (t : task_id) (s : State) : State :=
  match _endpoints_health_check s with
  | (Return _, s') => settle_task t (Success tt) s'
  | (Raise e, s') => settle_task t (Failure e) s'
  | (Suspended, s') => s'
  end.

(** The tasks of the loop that have not finished. *)
Definition in_flight (s : State) : nat :=
  List.length (filter (fun st => match st with Running => true | Done _ => false end)
            (tasks s)).

(** ** Shutdown *)

(** [task.cancel()] on the task [close] then awaits: the loop throws
    [CancelledError] into a task that has not finished, at the request it
    is awaiting; no handler of the health check catches it, so the task
    ends cancelled without touching the manager.  A finished task is left
    as it is. *)
Definition cancel_task (t : task_id) : M unit :=
  modify (fun s =>
    match task_status t s with
    | Some Running => settle_task t (Failure CancelledError) s
    | _ => s
    end).

Definition close : M unit :=
  handle <- attr refresh_task ;;
  match handle with
  | Some task =>
      cancel_task task ;;
      try_except (await_task task) (fun _ => ret tt)
  | None => ret tt
  end.

End Manager.

Arguments _GlobalEndpointManager : clear implicits.
Arguments State : clear implicits.
Arguments M : clear implicits.

(** ** An implementation of the collaborators

    The Location Cache, the account snapshot and the client are not part of
    this file of the SDK.  The theorems below hold for every implementation
    of their interfaces; the concrete one given here is used to run the
    manager on concrete inputs. *)

Module Account.
(** Modelled from the spec: the Account Topology Snapshot
    ([azure.cosmos.DatabaseAccount], not in this file of the SDK): the
    currently writable regions, the currently readable regions and the
    multi-write capability flag. *)
Record DatabaseAccount : Type := mk {
  WritableLocations : list (location * endpoint);
  ReadableLocations : list (location * endpoint);
  EnableMultipleWritableLocations : bool
}.
End Account.

Module TableCache.
Import Account.

Definition mem (e : endpoint) (l : list endpoint) : bool :=
  existsb (String.eqb e) l.

Definition drop (e : endpoint) (l : list endpoint) : list endpoint :=
  filter (fun x => negb (String.eqb e x)) l.

Definition add (e : endpoint) (l : list endpoint) : list endpoint :=
  if mem e l then l else l ++ [e].

(** Modelled from the spec: the Location Cache (class [LocationCache] of
    [.._location_cache], not in this file of the SDK) holds per-endpoint
    availability for reads and for writes, the last ingested snapshot and
    the read and write orderings derived from them. *)
Record t : Type := mk {
  default_endpoint : endpoint;
  unavailable_for_read : list endpoint;
  unavailable_for_write : list endpoint;
  account : option DatabaseAccount;
  read_endpoints : list endpoint;
  write_endpoints : list endpoint
}.

Definition usable (down : list endpoint) (regions : list (location * endpoint))
    (fallback : endpoint) : list endpoint :=
  match filter (fun e => negb (mem e down)) (map snd regions) with
  | [] => [fallback]
  | l => l
  end.

(** Modelled from the spec: [update_location_cache()] recomputes the
    derived ordering after availability changes; the default endpoint is
    the last resort. *)
Definition update_location_cache (c : t) : t :=
  match account c with
  | Some a =>
      mk (default_endpoint c) (unavailable_for_read c)
        (unavailable_for_write c) (account c)
        (usable (unavailable_for_read c) (ReadableLocations a)
           (default_endpoint c))
        (usable (unavailable_for_write c) (WritableLocations a)
           (default_endpoint c))
  | None => c
  end.

(** Modelled from the spec: the cache as built at client construction,
    before any snapshot: only the default endpoint is known. *)
Definition new (d : endpoint) (_ : ConnectionPolicy.t) : t :=
  mk d [] [] None [d] [d].

(** Modelled from the spec: [mark_endpoint_available(endpoint)]. *)
Definition mark_endpoint_available (e : endpoint) (c : t) : t :=
  mk (default_endpoint c) (drop e (unavailable_for_read c))
    (drop e (unavailable_for_write c)) (account c)
    (read_endpoints c) (write_endpoints c).

(** Modelled from the spec: [mark_endpoint_unavailable_for_read/write];
    the second argument asks for the derived view to be recomputed at
    once. *)
Definition mark_endpoint_unavailable_for_read (e : endpoint)
    (refresh_cache : bool) (c : t) : t :=
  let c' := mk (default_endpoint c) (add e (unavailable_for_read c))
              (unavailable_for_write c) (account c)
              (read_endpoints c) (write_endpoints c) in
  if refresh_cache then update_location_cache c' else c'.

Definition mark_endpoint_unavailable_for_write (e : endpoint)
    (refresh_cache : bool) (c : t) : t :=
  let c' := mk (default_endpoint c) (unavailable_for_read c)
              (add e (unavailable_for_write c)) (account c)
              (read_endpoints c) (write_endpoints c) in
  if refresh_cache then update_location_cache c' else c'.

(** Modelled from the spec: [perform_on_database_account_read(snapshot)]
    ingests a fresh snapshot. *)
Definition perform_on_database_account_read (a : DatabaseAccount) (c : t) : t :=
  update_location_cache
    (mk (default_endpoint c) (unavailable_for_read c)
       (unavailable_for_write c) (Some a)
       (read_endpoints c) (write_endpoints c)).

(** Modelled from the spec: [should_refresh_endpoints()], the cache's own
    staleness heuristic (opaque to the manager): here, the endpoint in
    use for reads or for writes is marked unavailable. *)
Definition should_refresh_endpoints (c : t) : bool :=
  existsb (fun e => mem e (unavailable_for_read c)) (firstn 1 (read_endpoints c))
  || existsb (fun e => mem e (unavailable_for_write c)) (firstn 1 (write_endpoints c)).

(** Modelled from the spec: [endpoints_to_health_check()], the candidates
    of a probe round: the endpoints of the snapshot's regions. *)
Definition endpoints_to_health_check (c : t) : list endpoint :=
  match account c with
  | Some a =>
      fold_left (fun acc e => add e acc)
        (map snd (ReadableLocations a) ++ map snd (WritableLocations a)) []
  | None => []
  end.

Definition lower (c : Ascii.ascii) : Ascii.ascii :=
  let n := Ascii.nat_of_ascii c in
  if ((65 <=? n) && (n <=? 90))%nat then Ascii.ascii_of_nat (n + 32) else c.

Fixpoint region_name (l : location) : string :=
  match l with
  | EmptyString => EmptyString
  | String c rest =>
      if Ascii.eqb c " "%char then region_name rest
      else String (lower c) (region_name rest)
  end.

Fixpoint insert_region (host : string) (suffix : string) : string :=
  match host with
  | EmptyString => suffix
  | String c rest =>
      if Ascii.eqb c "."%char then String.append suffix host
      else String c (insert_region rest suffix)
  end.

(** Modelled from the spec: [derive_location_endpoint(defaultEndpoint,
    locationName)], a pure transform: the region's name, without blanks
    and in lower case, is appended to the account name of the host. *)
Definition GetLocationalEndpoint (d : endpoint) (l : location) : endpoint :=
  insert_region d (String.append "-" (region_name l)).

#[global] Instance ops : LocationCache.Ops t DatabaseAccount := {|
  LocationCache.new := new;
  LocationCache.mark_endpoint_available := mark_endpoint_available;
  LocationCache.mark_endpoint_unavailable_for_read :=
    mark_endpoint_unavailable_for_read;
  LocationCache.mark_endpoint_unavailable_for_write :=
    mark_endpoint_unavailable_for_write;
  LocationCache.perform_on_database_account_read :=
    perform_on_database_account_read;
  LocationCache.update_location_cache := update_location_cache;
  LocationCache.should_refresh_endpoints := should_refresh_endpoints;
  LocationCache.endpoints_to_health_check := endpoints_to_health_check;
  LocationCache.GetLocationalEndpoint := GetLocationalEndpoint
|}.
End TableCache.

Module Network.
Import Account.

(** Modelled from the spec: the transport collaborator
    [fetch_account_topology(endpoint)] (the client's [GetDatabaseAccount]
    and [_GetDatabaseAccountCheck], not in this file of the SDK): each
    endpoint answers with a snapshot or fails with a classified error;
    the requests made are recorded in the order they were sent. *)
Record t : Type := mk {
  clock : Z;
  answers : list (endpoint * response DatabaseAccount);
  requests : list endpoint
}.

Fixpoint answer (e : endpoint) (l : list (endpoint * response DatabaseAccount))
  : response DatabaseAccount :=
  match l with
  | [] => Failure AzureError
  | (e', r) :: rest => if String.eqb e e' then r else answer e rest
  end.

Definition sent (e : endpoint) (n : t) : t :=
  mk (clock n) (answers n) (requests n ++ [e]).

(** Modelled from the spec: [fetch_account_topology(endpoint)]. *)
Definition GetDatabaseAccount (e : endpoint) (n : t)
  : response DatabaseAccount * t :=
  (answer e (answers n), sent e n).

(** Modelled from the spec: the health probe, one round-trip of the same
    fetch whose snapshot is dropped. *)
Definition _GetDatabaseAccountCheck (e : endpoint) (n : t)
  : response unit * t :=
  (match answer e (answers n) with
   | Success _ => Success tt
   | Failure x => Failure x
   end, sent e n).

Definition at_time (z : Z) (n : t) : t := mk z (answers n) (requests n).

(** The requests of a batch complete in the reverse of the order in
    which they were started. *)
Definition completion_order (l : list endpoint) (_ : t) : list endpoint :=
  rev l.

#[global] Instance environment : Environment t DatabaseAccount :=
  Build_Environment GetDatabaseAccount _GetDatabaseAccountCheck clock
    completion_order (fun l _ => Permutation_rev l).

(** [DefaultEndpointsRefreshTime], five minutes in milliseconds. *)
#[global] Instance constants : Constants := {|
  DefaultEndpointsRefreshTime := 5 * 60 * 1000
|}.
End Network.

(** ** Vocabulary of the statements *)

Section Vocabulary.

Context {LC Env DatabaseAccount : Type}.
Context {constants : Constants}.
Context {cache_ops : LocationCache.Ops LC DatabaseAccount}.
Context {environment : Environment Env DatabaseAccount}.

(** An endpoint marked unavailable for both read and write, as the
    handlers of [_GetDatabaseAccount] and [_database_account_check] do. *)
Definition marked_unavailable (ep : endpoint) (c : LC) : LC :=
  LocationCache.mark_endpoint_unavailable_for_write ep false
    (LocationCache.mark_endpoint_unavailable_for_read ep false c).

Definition all_marked_unavailable (eps : list endpoint) (c : LC) : LC :=
  fold_left (fun acc ep => marked_unavailable ep acc) eps c.

(** The environment after the account fetch has failed, with a service or
    a transport error, at each of the endpoints in turn; [None] when one of
    the fetches does anything else. *)
Fixpoint failed_fetches (eps : list endpoint) (e : Env) : option Env :=
  match eps with
  | [] => Some e
  | ep :: rest =>
      match GetDatabaseAccount ep e with
      | (Failure x, e') =>
          if is_cosmos_or_azure_error x then failed_fetches rest e' else None
      | (Success _, _) => None
      end
  end.

(** The answers the environment gives to the health probes of a batch,
    taken in the order in which they complete. *)
Fixpoint probe_answers (eps : list endpoint) (e : Env)
  : list (endpoint * response unit) * Env :=
  match eps with
  | [] => ([], e)
  | ep :: rest =>
      let (r, e') := _GetDatabaseAccountCheck ep e in
      let (rs, e'') := probe_answers rest e' in
      ((ep, r) :: rs, e'')
  end.

(** A probe settles with a success or with a service or transport error
    (it is not cancelled). *)
Definition settles (r : response unit) : bool :=
  match r with
  | Success _ => true
  | Failure x => is_cosmos_or_azure_error x
  end.

(** What the outcome of its own probe does to an endpoint. *)
Definition probe_recorded (probe : endpoint * response unit) (c : LC) : LC :=
  match snd probe with
  | Success _ => LocationCache.mark_endpoint_available (fst probe) c
  | Failure _ => marked_unavailable (fst probe) c
  end.

Definition probes_recorded (probes : list (endpoint * response unit)) (c : LC)
  : LC :=
  fold_left (fun acc probe => probe_recorded probe acc) probes c.

(** The state in which a fetch or a probe leaves [s]. *)
Definition after_io (c : LC) (d : option DatabaseAccount) (e : Env)
    (s : State LC Env DatabaseAccount) : State LC Env DatabaseAccount :=
  mkState (with_location_cache c (with_database_account_cache d (self s)))
    e (tasks s) (log s).

(** A fetch or a probe touches the Location Cache, the cached snapshot and
    the environment; the configuration, the refresh state, the task table
    and the log are as before. *)
Definition io_only (s s' : State LC Env DatabaseAccount) : Prop :=
  exists c d e, s' = after_io c d e s.

(** The handle in [refresh_task], if any, is a task of the loop. *)
Definition handle_valid (s : State LC Env DatabaseAccount) : bool :=
  match refresh_task (self s) with
  | Some t => (t <? List.length (tasks s))%nat
  | None => true
  end.

(** More than the refresh interval has elapsed since the last refresh
    (the test of line 110). *)
Definition stale (s : State LC Env DatabaseAccount) : bool :=
  current_time_millis (env s) - last_refresh_time (self s)
    >? refresh_time_interval_in_ms (self s).

(** Every probe of a batch settles. *)
Definition all_settle (probes : list (endpoint * response unit)) : bool :=
  forallb (fun probe => settles (snd probe)) probes.



End Vocabulary.

(** ** A concrete account: two regions behind one global endpoint *)

Module Scenario.
Import Account.

Definition default : endpoint := "https://contoso.documents.azure.com:443/"%string.

Definition west : endpoint :=
  TableCache.GetLocationalEndpoint default "West US"%string.

Definition east : endpoint :=
  TableCache.GetLocationalEndpoint default "East US"%string.

Definition east_account : DatabaseAccount :=
  Account.mk [("East US"%string, east)]
    [("East US"%string, east); ("West US"%string, west)] false.

Definition client : Client :=
  mkClient default (ConnectionPolicy.mk ["West US"%string; "East US"%string]).

(** Only East US is reachable. *)
Definition east_only : Network.t :=
  Network.mk 1000
    [(default, Failure AzureError);
     (west, Failure CosmosHttpResponseError);
     (east, Success east_account)] [].

(** West US is down; the default endpoint and East US answer. *)
Definition west_down : Network.t :=
  Network.mk 1000
    [(default, Success east_account);
     (west, Failure CosmosHttpResponseError);
     (east, Success east_account)] [].

(** No endpoint is reachable. *)
Definition outage : Network.t :=
  Network.mk 1000
    [(default, Failure AzureError);
     (west, Failure CosmosHttpResponseError);
     (east, Failure CosmosHttpResponseError)] [].

Definition manager : _GlobalEndpointManager TableCache.t DatabaseAccount :=
  __init__ client.

(** The manager as the client constructor leaves it. *)
Definition fresh (n : Network.t)
  : State TableCache.t Network.t DatabaseAccount :=
  mkState manager n [] [].

(** The manager once startup is over. *)
Definition serving (n : Network.t)
  : State TableCache.t Network.t DatabaseAccount :=
  mkState (with_startup false manager) n [] [].

(** A serving manager that launches a background refresh at 400 s
    during the outage; the event loop then runs the task, which ends
    with the error of the exhausted fallback. *)
Definition launched : State TableCache.t Network.t DatabaseAccount :=
  snd (refresh_endpoint_list None (serving (Network.at_time 400000 outage))).

Definition task_failed : State TableCache.t Network.t DatabaseAccount :=
  run_refresh_task 0%nat launched.

(** A serving manager that launches a background refresh at 400 s and,
    the task still running, is asked to refresh again at 800 s. *)
Definition slow_round : State TableCache.t Network.t DatabaseAccount :=
  snd (refresh_endpoint_list None (serving (Network.at_time 400000 east_only))).

Definition asked_again : State TableCache.t Network.t DatabaseAccount :=
  snd (refresh_endpoint_list None
         (with_env (Network.at_time 800000 east_only) slow_round)).

(** The round launched by [slow_round], run by the loop to its end. *)
Definition round_done : State TableCache.t Network.t DatabaseAccount :=
  run_refresh_task 0%nat slow_round.

(** The default endpoint is unreachable and the fetch is cancelled while
    West US is being asked. *)
Definition cancelled_at_west : Network.t :=
  Network.mk 1000
    [(default, Failure AzureError);
     (west, Failure CancelledError);
     (east, Success east_account)] [].

(** A manager in startup that already holds a snapshot. *)
Definition with_snapshot (n : Network.t)
  : State TableCache.t Network.t DatabaseAccount :=
  on_self (with_database_account_cache (Some east_account)) (fresh n).




(** A serving manager whose lock is held by another caller, at 400 s. *)
Definition lock_held : State TableCache.t Network.t DatabaseAccount :=
  on_self (with_refresh_lock true) (serving (Network.at_time 400000 east_only)).
End Scenario.

(** ** Properties *)

Section Properties.

Context {LC Env DatabaseAccount : Type}.
Context {constants : Constants}.
Context {cache_ops : LocationCache.Ops LC DatabaseAccount}.
Context {environment : Environment Env DatabaseAccount}.

Local Notation "'State'" := (State LC Env DatabaseAccount).

Ltac unfold_monad :=
  unfold mark_endpoint_unavailable_for_read,
    mark_endpoint_unavailable_for_write, update_location_cache,
    _GetDatabaseAccountStub, on_location_cache, await_client, logger_exception,
    attr, assign, gets, modify, try_except, bind, ret, raise in *.

Ltac run := unfold_monad; cbn in *.

(** *** The fallback loop *)

Lemma for_location_name_exhausted (locations : list location) :
  forall (s : State) (envf : Env),
    failed_fetches
      (map (LocationCache.GetLocationalEndpoint (DefaultEndpoint (self s)))
         locations) (env s) = Some envf ->
    for_location_name locations s =
      (Return None,
       after_io
         (all_marked_unavailable
            (map (LocationCache.GetLocationalEndpoint (DefaultEndpoint (self s)))
               locations) (location_cache (self s)))
         (_database_account_cache (self s)) envf s).
Proof.
  induction locations as [|location_name rest IH]; intros s envf Hfail.
  - cbn in Hfail. injection Hfail as <-. destruct s as [[] ? ? ?]. reflexivity.
  - cbn [map failed_fetches] in Hfail. cbn [for_location_name]. run.
    destruct (GetDatabaseAccount _ (env s)) as [[account|x] e'] eqn:Hfetch;
      [discriminate|].
    destruct (is_cosmos_or_azure_error x); [|discriminate].
    cbn. rewrite IH with (envf := envf); [reflexivity | exact Hfail].
Qed.

Lemma for_location_name_first_success (failed : list location) :
  forall (s : State) (winner : location) (rest : list location)
         (envf env' : Env) (account : DatabaseAccount),
    let ep := LocationCache.GetLocationalEndpoint (DefaultEndpoint (self s)) in
    failed_fetches (map ep failed) (env s) = Some envf ->
    GetDatabaseAccount (ep winner) envf = (Success account, env') ->
    for_location_name (failed ++ winner :: rest) s =
      (Return (Some (account, ep winner)),
       after_io
         (LocationCache.mark_endpoint_available (ep winner)
            (all_marked_unavailable (map ep failed) (location_cache (self s))))
         (Some account) env' s).
Proof.
  induction failed as [|location_name failed IH];
    intros s winner rest envf env' account ep Hfail Hwin.
  - cbn in Hfail. injection Hfail as <-.
    cbn [app for_location_name]. run. fold ep. rewrite Hwin. reflexivity.
  - cbn [map failed_fetches] in Hfail. cbn [app for_location_name]. run.
    fold ep in Hfail |- *.
    destruct (GetDatabaseAccount (ep location_name) (env s))
      as [[a|x] e'] eqn:Hfetch; [discriminate|].
    destruct (is_cosmos_or_azure_error x); [|discriminate].
    cbn. erewrite IH; [reflexivity | exact Hfail | exact Hwin].
Qed.

Lemma for_location_name_winner (locations : list location) :
  forall (s s' : State) (account : DatabaseAccount) (ep : endpoint),
    for_location_name locations s = (Return (Some (account, ep)), s') ->
    _database_account_cache (self s') = Some account /\
    (exists c, location_cache (self s') =
               LocationCache.mark_endpoint_available ep c) /\
    exists location_name,
      In location_name locations /\
      ep = LocationCache.GetLocationalEndpoint (DefaultEndpoint (self s))
             location_name.
Proof.
  induction locations as [|location_name rest IH]; intros s s' account ep Hrun.
  - cbn in Hrun. discriminate.
  - cbn [for_location_name] in Hrun. run.
    destruct (GetDatabaseAccount _ (env s)) as [[a|x] e'] eqn:Hfetch.
    + cbn in Hrun. injection Hrun as <- <- <-. cbn.
      split; [reflexivity|]. split; [eexists; reflexivity|].
      exists location_name. split; [now left | reflexivity].
    + cbn in Hrun. destruct (is_cosmos_or_azure_error x); [|discriminate].
      cbn in Hrun. apply IH in Hrun. cbn in Hrun.
      destruct Hrun as (Hcache & Hmark & l & Hin & Hep).
      split; [exact Hcache|]. split; [exact Hmark|].
      exists l. split; [now right | exact Hep].
Qed.

Lemma io_only_refl (s : State) : io_only s s.
Proof.
  exists (location_cache (self s)), (_database_account_cache (self s)), (env s).
  destruct s as [[] ? ? ?]. reflexivity.
Qed.

Lemma io_only_trans (s1 s2 s3 : State) :
  io_only s1 s2 -> io_only s2 s3 -> io_only s1 s3.
Proof.
  intros (c & d & e & ->) (c' & d' & e' & ->).
  exists c', d', e'. reflexivity.
Qed.

Lemma io_only_after_io (s : State) c d e : io_only s (after_io c d e s).
Proof. exists c, d, e. reflexivity. Qed.

Lemma io_only_env (s : State) (e : Env) :
  io_only s (mkState (self s) e (tasks s) (log s)).
Proof.
  exists (location_cache (self s)), (_database_account_cache (self s)), e.
  destruct s as [[] ? ? ?]. reflexivity.
Qed.

Ltac io_step :=
  first [ apply io_only_refl
        | apply io_only_env
        | eexists _, _, _; reflexivity ].

Lemma for_location_name_io (locations : list location) :
  forall (s s' : State) r,
    for_location_name locations s = (r, s') ->
    io_only s s' /\ r <> Suspended.
Proof.
  induction locations as [|location_name rest IH]; intros s s' r Hrun.
  - cbn in Hrun. injection Hrun as <- <-.
    split; [apply io_only_refl | discriminate].
  - cbn [for_location_name] in Hrun. run.
    destruct (GetDatabaseAccount _ (env s)) as [[a|x] e'] eqn:Hfetch.
    + cbn in Hrun. injection Hrun as <- <-.
      split; [io_step | discriminate].
    + cbn in Hrun. destruct (is_cosmos_or_azure_error x).
      * cbn in Hrun. apply IH in Hrun. destruct Hrun as [Hio Hr].
        split; [|exact Hr].
        eapply io_only_trans; [|exact Hio]. io_step.
      * cbn in Hrun. injection Hrun as <- <-.
        split; [io_step | discriminate].
Qed.

Lemma GetDatabaseAccount_io (s s' : State) r :
  _GetDatabaseAccount s = (r, s') -> io_only s s' /\ r <> Suspended.
Proof.
  intros Hrun. unfold _GetDatabaseAccount in Hrun. run.
  destruct (GetDatabaseAccount _ (env s)) as [[a|x] e'] eqn:Hfetch.
  - cbn in Hrun. injection Hrun as <- <-.
    split; [io_step | discriminate].
  - cbn in Hrun. destruct (is_cosmos_or_azure_error x).
    + cbn in Hrun.
      match type of Hrun with
      | context [for_location_name ?l ?st] =>
          destruct (for_location_name l st) as [found s1] eqn:Hloop
      end.
      apply for_location_name_io in Hloop. destruct Hloop as [Hio Hfound].
      assert (Hs1 : io_only s s1).
      { eapply io_only_trans; [|exact Hio]. io_step. }
      destruct found as [[result|]|y|]; cbn in Hrun;
        injection Hrun as <- <-; (split; [exact Hs1 | congruence]).
    + cbn in Hrun. injection Hrun as <- <-.
      split; [io_step | discriminate].
Qed.

(** *** The health probes *)

Lemma database_account_check_settles (ep : endpoint) (s : State) r e' :
  _GetDatabaseAccountCheck ep (env s) = (r, e') ->
  settles r = true ->
  _database_account_check ep s =
    (Return tt,
     after_io (probe_recorded (ep, r) (location_cache (self s)))
       (_database_account_cache (self s)) e' s).
Proof.
  intros Hprobe Hr. unfold _database_account_check. run. rewrite Hprobe.
  destruct r as [[]|x]; cbn in *.
  - destruct s as [[] ? ? ?]. reflexivity.
  - rewrite Hr. destruct s as [[] ? ? ?]. reflexivity.
Qed.

Lemma database_account_check_io (ep : endpoint) (s s' : State) r :
  _database_account_check ep s = (r, s') -> io_only s s' /\ r <> Suspended.
Proof.
  intros Hrun. unfold _database_account_check in Hrun. run.
  destruct (_GetDatabaseAccountCheck ep (env s)) as [[a|x] e'].
  - cbn in Hrun. injection Hrun as <- <-.
    split; [io_step | discriminate].
  - cbn in Hrun. destruct (is_cosmos_or_azure_error x); cbn in Hrun;
      injection Hrun as <- <-;
      (split; [io_step | discriminate]).
Qed.

Lemma probe_answers_endpoints (eps : list endpoint) :
  forall e : Env, map fst (fst (probe_answers eps e)) = eps.
Proof.
  induction eps as [|ep rest IH]; intros e; cbn; [reflexivity|].
  destruct (_GetDatabaseAccountCheck ep e) as [r e'].
  specialize (IH e'). destruct (probe_answers rest e') as [rs e''].
  cbn in *. now rewrite IH.
Qed.

Lemma gather_checks_settle (eps : list endpoint) :
  forall (s : State) probes envf,
    probe_answers eps (env s) = (probes, envf) ->
    all_settle probes = true ->
    gather (map _database_account_check eps) s =
      (Return tt,
       after_io (probes_recorded probes (location_cache (self s)))
         (_database_account_cache (self s)) envf s).
Proof.
  induction eps as [|ep rest IH]; intros s probes envf Hanswers Hall.
  - cbn in Hanswers. injection Hanswers as <- <-.
    destruct s as [[] ? ? ?]. reflexivity.
  - cbn [probe_answers] in Hanswers.
    destruct (_GetDatabaseAccountCheck ep (env s)) as [r e'] eqn:Hprobe.
    destruct (probe_answers rest e') as [rs e''] eqn:Hrest.
    injection Hanswers as <- <-.
    cbn in Hall. apply andb_true_iff in Hall. destruct Hall as [Hr Hrs].
    cbn [map gather]. unfold bind.
    rewrite (database_account_check_settles ep s Hprobe Hr).
    rewrite IH with (probes := rs) (envf := e''); [reflexivity | exact Hrest | exact Hrs].
Qed.

Lemma gather_checks_io (eps : list endpoint) :
  forall (s s' : State) r,
    gather (map _database_account_check eps) s = (r, s') ->
    io_only s s' /\ r <> Suspended.
Proof.
  induction eps as [|ep rest IH]; intros s s' r Hrun.
  - cbn in Hrun. injection Hrun as <- <-.
    split; [apply io_only_refl | discriminate].
  - cbn [map gather] in Hrun. unfold bind in Hrun.
    destruct (_database_account_check ep s) as [r1 s1] eqn:Hcheck.
    apply database_account_check_io in Hcheck. destruct Hcheck as [Hio Hr1].
    destruct r1 as [[]|x|].
    + apply IH in Hrun. destruct Hrun as [Hio' Hr].
      split; [eapply io_only_trans; eassumption | exact Hr].
    + injection Hrun as <- <-. split; [exact Hio | discriminate].
    + congruence.
Qed.

Lemma endpoints_health_check_io (s s' : State) r :
  _endpoints_health_check s = (r, s') -> io_only s s' /\ r <> Suspended.
Proof.
  intros Hrun. unfold _endpoints_health_check in Hrun. unfold bind at 1 in Hrun.
  destruct (_GetDatabaseAccount s) as [r0 s0] eqn:Hfetch.
  apply GetDatabaseAccount_io in Hfetch. destruct Hfetch as [Hio Hr0].
  destruct r0 as [[account attempted]|x|].
  - run.
    match type of Hrun with
    | context [gather ?l ?st] => destruct (gather l st) as [r1 s1] eqn:Hgather
    end.
    apply gather_checks_io in Hgather. destruct Hgather as [Hio1 Hr1].
    assert (Hs1 : io_only s s1).
    { eapply io_only_trans; [exact Hio|].
      eapply io_only_trans; [|exact Hio1]. io_step. }
    destruct r1 as [[]|x|]; cbn in Hrun; injection Hrun as <- <-.
    + split; [|discriminate].
      eapply io_only_trans; [exact Hs1|]. io_step.
    + split; [exact Hs1 | discriminate].
    + congruence.
  - injection Hrun as <- <-. split; [exact Hio | discriminate].
  - congruence.
Qed.

(** *** The topology fetch *)

(** C1. A run of [_GetDatabaseAccount] asks the default endpoint first.
    If that fetch succeeds its snapshot and the default endpoint are
    returned and no preferred location is asked.  If it fails with a
    service or transport error, the default endpoint is marked unavailable
    for read and for write and the preferred locations are asked in their
    declared order, each at the endpoint [GetLocationalEndpoint] derives
    for it: every location that fails before the first success is marked
    unavailable for read and for write, the first success's snapshot and
    endpoint are returned with the environment as that fetch left it (no
    later location is asked), and when every location fails the error of
    the default endpoint is raised to the caller. *)
Theorem GetDatabaseAccount_fallback_order (s : State) :
  let d := DefaultEndpoint (self s) in
  let ep := LocationCache.GetLocationalEndpoint d in
  let locations := PreferredLocations (self s) in
  let c := location_cache (self s) in
  (forall account env1,
      GetDatabaseAccount d (env s) = (Success account, env1) ->
      _GetDatabaseAccount s =
        (Return (account, d),
         after_io (LocationCache.mark_endpoint_available d c)
           (Some account) env1 s)) /\
  (forall x env1,
      GetDatabaseAccount d (env s) = (Failure x, env1) ->
      is_cosmos_or_azure_error x = true ->
      (forall failed winner rest envf env2 account,
          locations = failed ++ winner :: rest ->
          failed_fetches (map ep failed) env1 = Some envf ->
          GetDatabaseAccount (ep winner) envf = (Success account, env2) ->
          _GetDatabaseAccount s =
            (Return (account, ep winner),
             after_io
               (LocationCache.mark_endpoint_available (ep winner)
                  (all_marked_unavailable (d :: map ep failed) c))
               (Some account) env2 s)) /\
      (forall envf,
          failed_fetches (map ep locations) env1 = Some envf ->
          _GetDatabaseAccount s =
            (Raise x,
             after_io (all_marked_unavailable (d :: map ep locations) c)
               (_database_account_cache (self s)) envf s))).
Proof.
  intros d ep locations c. split.
  - intros account env1 Hfetch. unfold _GetDatabaseAccount. run.
    fold d. rewrite Hfetch. reflexivity.
  - intros x env1 Hfetch Hx. split.
    + intros failed winner rest envf env2 account Hlocs Hfail Hwin.
      unfold _GetDatabaseAccount. run. fold d. rewrite Hfetch, Hx. cbn.
      fold locations. rewrite Hlocs.
      erewrite for_location_name_first_success;
        [reflexivity | exact Hfail | exact Hwin].
    + intros envf Hfail.
      unfold _GetDatabaseAccount. run. fold d. rewrite Hfetch, Hx. cbn.
      fold locations.
      erewrite for_location_name_exhausted; [reflexivity | exact Hfail].
Qed.

(** C10. When [_GetDatabaseAccount] returns a snapshot and the endpoint
    that served it, the snapshot is the one stored in
    [_database_account_cache], marking the winning endpoint available was
    the last thing done to the Location Cache, and the winning endpoint
    is the default endpoint or the endpoint of a preferred location. *)
Theorem GetDatabaseAccount_success_is_recorded
    (s s' : State) (account : DatabaseAccount) (ep : endpoint) :
  _GetDatabaseAccount s = (Return (account, ep), s') ->
  _database_account_cache (self s') = Some account /\
  (exists c, location_cache (self s') =
             LocationCache.mark_endpoint_available ep c) /\
  (ep = DefaultEndpoint (self s) \/
   exists location_name,
     In location_name (PreferredLocations (self s)) /\
     ep = LocationCache.GetLocationalEndpoint (DefaultEndpoint (self s))
            location_name).
Proof.
  intros Hrun. unfold _GetDatabaseAccount in Hrun. run.
  destruct (GetDatabaseAccount _ (env s)) as [[a|x] e'] eqn:Hfetch.
  - cbn in Hrun. injection Hrun as <- <- <-. cbn.
    split; [reflexivity|]. split; [eexists; reflexivity | now left].
  - cbn in Hrun. destruct (is_cosmos_or_azure_error x); [|discriminate].
    cbn in Hrun.
    match type of Hrun with
    | context [for_location_name ?l ?st] =>
        destruct (for_location_name l st) as [[[[a q]|]|y|] s1] eqn:Hloop
    end; try discriminate.
    cbn in Hrun. injection Hrun as <- <- <-.
    apply for_location_name_winner in Hloop. cbn in Hloop.
    destruct Hloop as (Hcache & Hmark & l & Hin & Hep).
    split; [exact Hcache|]. split; [exact Hmark|].
    right. exists l. split; [exact Hin | exact Hep].
Qed.

(** *** The health-check round *)

(** C7. In a health-check round whose topology fetch returned, the batch
    is the cache's candidates other than the endpoint just proven
    reachable.  Whatever the order in which the probes of the batch
    complete, if each of them settles with a success or with a service or
    transport error, then every endpoint of the batch is probed once, the
    round returns without raising, each endpoint is marked by the answer
    of its own probe (available on success, unavailable for read and for
    write on failure), and [update_location_cache] is applied to the cache
    that results from all of them. *)
Theorem endpoints_health_check_batch
    (s s1 : State) (account : DatabaseAccount) (attempted : endpoint) :
  _GetDatabaseAccount s = (Return (account, attempted), s1) ->
  let c1 := LocationCache.perform_on_database_account_read account
              (location_cache (self s1)) in
  let batch := filter (fun ep => negb (String.eqb ep attempted))
                 (LocationCache.endpoints_to_health_check c1) in
  forall probes envf,
    probe_answers (completion_order batch (env s1)) (env s1) = (probes, envf) ->
    all_settle probes = true ->
    Permutation batch (map fst probes) /\
    _endpoints_health_check s =
      (Return tt,
       after_io
         (LocationCache.update_location_cache (probes_recorded probes c1))
         (_database_account_cache (self s1)) envf s1).
Proof.
  intros Hfetch c1 batch probes envf Hanswers Hall. split.
  - pose proof (probe_answers_endpoints (completion_order batch (env s1))
                  (env s1)) as Heps.
    rewrite Hanswers in Heps. cbn in Heps. rewrite Heps.
    apply completion_order_perm.
  - unfold _endpoints_health_check. unfold bind at 1. rewrite Hfetch. run.
    fold c1. fold batch.
    erewrite gather_checks_settle; [reflexivity | exact Hanswers | exact Hall].
Qed.

(** *** The private refresh *)

(** C8. The private refresh, given a snapshot while the manager is not in
    startup, returns after applying the snapshot to the Location Cache
    with [perform_on_database_account_read], clearing [refresh_needed] and
    stamping [last_refresh_time] with the current time; the environment
    has received no request, the task table has no new task and
    [refresh_task] is as it was. *)
Theorem refresh_private_fast_path (s : State) (account : DatabaseAccount) :
  startup (self s) = false ->
  let out := _refresh_endpoint_list_private (Some account) s in
  fst out = Return tt /\
  location_cache (self (snd out)) =
    LocationCache.perform_on_database_account_read account
      (location_cache (self s)) /\
  refresh_needed (self (snd out)) = false /\
  last_refresh_time (self (snd out)) = current_time_millis (env s) /\
  env (snd out) = env s /\
  tasks (snd out) = tasks s /\
  refresh_task (self (snd out)) = refresh_task (self s).
Proof.
  intros Hstartup out. subst out.
  unfold _refresh_endpoint_list_private. run. rewrite Hstartup. cbn.
  repeat split.
Qed.

(** *** Harvesting the background task *)

Lemma harvest_refresh_task_frame (s : State) :
  fst (harvest_refresh_task s) = Return tt /\
  (forall A (f : _GlobalEndpointManager LC DatabaseAccount -> A),
      (forall t m, f (with_refresh_task t m) = f m) ->
      f (self (snd (harvest_refresh_task s))) = f (self s)) /\
  env (snd (harvest_refresh_task s)) = env s /\
  tasks (snd (harvest_refresh_task s)) = tasks s.
Proof.
  unfold harvest_refresh_task, task_done, await_task, task_status. run.
  destruct (refresh_task (self s)) as [t|]; cbn.
  - destruct (nth_error (tasks s) t) as [[|[[]|x]]|] eqn:Hstatus; cbn;
      rewrite ?Hstatus; cbn;
      (split; [reflexivity|]); (split; [|split; reflexivity]);
      intros A f Hf; try reflexivity.
    apply Hf.
  - split; [reflexivity|]. split; [|split; reflexivity]. reflexivity.
Qed.

Lemma harvest_finished_task (s : State) (t : task_id) :
  refresh_task (self s) = Some t ->
  task_status t s = Some (Done (Success tt)) ->
  harvest_refresh_task s = (Return tt, on_self (with_refresh_task None) s).
Proof.
  intros Hhandle Hstatus.
  unfold harvest_refresh_task, task_done, await_task. run.
  rewrite Hhandle. cbn. rewrite Hstatus. cbn. rewrite ?Hstatus. reflexivity.
Qed.

Lemma harvest_failed_task (s : State) (t : task_id) (x : exn) :
  refresh_task (self s) = Some t ->
  task_status t s = Some (Done (Failure x)) ->
  harvest_refresh_task s = (Return tt, with_log (log s ++ [x]) s).
Proof.
  intros Hhandle Hstatus.
  unfold harvest_refresh_task, task_done, await_task. run.
  rewrite Hhandle. cbn. rewrite Hstatus. cbn. rewrite ?Hstatus. reflexivity.
Qed.

Lemma harvest_running_task (s : State) (t : task_id) :
  refresh_task (self s) = Some t ->
  task_status t s = Some Running ->
  harvest_refresh_task s = (Return tt, s).
Proof.
  intros Hhandle Hstatus.
  unfold harvest_refresh_task, task_done, await_task. run.
  rewrite Hhandle. cbn. rewrite Hstatus. cbn. rewrite ?Hstatus. reflexivity.
Qed.

(** *** The refresh entry point *)

Ltac normal_state :=
  unfold on_self, with_env, with_tasks, with_log, with_refresh_lock,
    with_last_refresh_time, with_refresh_needed, with_refresh_task,
    with_startup, with_location_cache, with_database_account_cache in *;
  cbn in *.

Ltac harvest_then s h :=
  let r := fresh "r" in
  let Hh := fresh "Hharvest" in
  let Hr := fresh "Hr" in
  let Hself := fresh "Hself" in
  let Henv := fresh "Henv" in
  let Htasks := fresh "Htasks" in
  destruct (harvest_refresh_task_frame s) as (Hr & Hself & Henv & Htasks);
  destruct (harvest_refresh_task s) as [r h] eqn:Hh;
  cbn [fst snd] in Hr, Hself, Henv, Htasks; subst r;
  pose proof (Hself _ last_refresh_time (fun _ _ => eq_refl)) as Hlast;
  pose proof (Hself _ refresh_time_interval_in_ms (fun _ _ => eq_refl))
    as Hinterval;
  pose proof (Hself _ refresh_needed (fun _ _ => eq_refl)) as Hneeded;
  pose proof (Hself _ refresh_lock (fun _ _ => eq_refl)) as Hheld;
  pose proof (Hself _ startup (fun _ _ => eq_refl)) as Hstart;
  pose proof (Hself _ location_cache (fun _ _ => eq_refl)) as Hcache.

(** C9 (as the code has it). A call of [refresh_endpoint_list] that finds
    more than the refresh interval elapsed since [last_refresh_time], and
    the lock free, sets [refresh_needed] at line 111 and runs the private
    refresh.  Without a snapshot, or in startup, a probe round is
    triggered: out of startup a background task is created and stored in
    [refresh_task], in startup the health check is run inline.  With a
    snapshot and out of startup the snapshot is applied instead and no
    probe is made. *)
Theorem refresh_endpoint_list_when_stale
    (s : State) (database_account : option DatabaseAccount) :
  current_time_millis (env s) - last_refresh_time (self s)
    > refresh_time_interval_in_ms (self s) ->
  refresh_lock (self s) = false ->
  let now := current_time_millis (env s) in
  let s1 := snd (check_staleness (snd (harvest_refresh_task s))) in
  let stamped m := with_last_refresh_time now (with_refresh_needed false m) in
  refresh_needed (self s1) = true /\
  (startup (self s) = false -> database_account = None ->
   refresh_endpoint_list database_account s =
     (Return tt,
      with_tasks (tasks s ++ [Running])
        (on_self (fun m => with_refresh_lock false
                    (with_refresh_task (Some (List.length (tasks s)))
                       (stamped m))) s1))) /\
  (startup (self s) = true ->
   refresh_endpoint_list database_account s =
     match _endpoints_health_check
             (on_self (fun m => with_refresh_lock true (stamped m)) s1) with
     | (Return _, s2) =>
         (Return tt,
          on_self (fun m => with_refresh_lock false (with_startup false m)) s2)
     | (Raise e, s2) => (Raise e, on_self (with_refresh_lock false) s2)
     | (Suspended, s2) => (Suspended, s2)
     end) /\
  (startup (self s) = false ->
   forall account, database_account = Some account ->
   refresh_endpoint_list database_account s =
     (Return tt,
      on_self (fun m => with_refresh_lock false
                 (stamped
                    (with_location_cache
                       (LocationCache.perform_on_database_account_read account
                          (location_cache m)) m))) s1) /\
   env (snd (refresh_endpoint_list database_account s)) = env s /\
   tasks (snd (refresh_endpoint_list database_account s)) = tasks s).
Proof.
  intros Hstale Hlock now s1 stamped.
  unfold refresh_endpoint_list, bind. subst s1 stamped now.
  harvest_then s h.
  assert (Hgt : (current_time_millis (env s) - last_refresh_time (self s)
                 >? refresh_time_interval_in_ms (self s)) = true).
  { apply Z.gtb_lt. lia. }
  unfold check_staleness. run. rewrite Henv, Hlast, Hinterval, Hgt. cbn.
  split; [reflexivity|].
  unfold refresh_if_needed, async_with_refresh_lock, refresh_under_lock,
    _refresh_endpoint_list_private, create_task. run.
  rewrite Hheld, Hlock. cbn.
  split; [|split].
  - intros Hstartup ->.
    repeat (progress (cbn; rewrite ?Hstart, ?Hstartup, ?Henv, ?Htasks,
                        ?orb_true_r)).
    reflexivity.
  - intros Hstartup.
    destruct database_account;
      repeat (progress (cbn; rewrite ?Hstart, ?Hstartup, ?Henv, ?Htasks,
                          ?orb_true_r));
      normal_state;
      match goal with
      | |- context [_endpoints_health_check ?st] =>
          destruct (_endpoints_health_check st) as [[[]|x|] s2]
      end; reflexivity.
  - intros Hstartup account ->.
    repeat (progress (cbn; rewrite ?Hstart, ?Hstartup, ?Henv, ?Htasks,
                        ?orb_true_r)).
    repeat split.
Qed.

Lemma bind_run {A B} (c : M LC Env DatabaseAccount A)
    (k : A -> M LC Env DatabaseAccount B) (s : State) :
  bind c k s =
    match c s with
    | (Return a, s') => k a s'
    | (Raise e, s') => (Raise e, s')
    | (Suspended, s') => (Suspended, s')
    end.
Proof. reflexivity. Qed.

Lemma check_staleness_run (s : State) :
  check_staleness s =
    (Return tt,
     if current_time_millis (env s) - last_refresh_time (self s)
          >? refresh_time_interval_in_ms (self s)
     then on_self (with_refresh_needed true) s
     else s).
Proof.
  unfold check_staleness. run. destruct (_ >? _); reflexivity.
Qed.

Lemma refresh_endpoint_list_steps
    (database_account : option DatabaseAccount) (s : State) :
  refresh_endpoint_list database_account s =
    refresh_if_needed database_account
      (snd (check_staleness (snd (harvest_refresh_task s)))).
Proof.
  unfold refresh_endpoint_list. rewrite bind_run.
  destruct (harvest_refresh_task_frame s) as (Hr & _).
  destruct (harvest_refresh_task s) as [r h]. cbn [fst snd] in *. subst r.
  rewrite bind_run, check_staleness_run. reflexivity.
Qed.

Lemma refresh_if_needed_in_startup
    (database_account : option DatabaseAccount) (s : State) :
  refresh_needed (self s) = true ->
  refresh_lock (self s) = false ->
  startup (self s) = true ->
  refresh_if_needed database_account s =
    match _endpoints_health_check
            (on_self (fun m => with_refresh_lock true
                        (with_last_refresh_time (current_time_millis (env s))
                           (with_refresh_needed false m))) s) with
    | (Return _, s2) =>
        (Return tt,
         on_self (fun m => with_refresh_lock false (with_startup false m)) s2)
    | (Raise e, s2) => (Raise e, on_self (with_refresh_lock false) s2)
    | (Suspended, s2) => (Suspended, s2)
    end.
Proof.
  intros Hneeded Hlock Hstartup.
  unfold refresh_if_needed, async_with_refresh_lock, refresh_under_lock,
    _refresh_endpoint_list_private. run.
  rewrite Hneeded, Hlock. cbn. rewrite Hneeded. cbn.
  destruct database_account;
    repeat (progress (normal_state;
                      rewrite ?Hstartup, ?Hneeded, ?orb_true_r));
    match goal with
    | |- context [_endpoints_health_check ?st] =>
        destruct (_endpoints_health_check st) as [[[]|x|] s2]
    end; reflexivity.
Qed.

(** *** The startup refresh *)

(** C2 (as the code has it). [force_refresh_on_startup], called on a
    manager in startup with the lock free, runs the health check in the
    foreground before it returns (no background task is created).  When
    the health check returns, the call returns with [startup] false; when
    the health check raises, the error is raised to the caller and
    [startup] is still true. *)
Theorem force_refresh_on_startup_outcome
    (s : State) (database_account : option DatabaseAccount) :
  startup (self s) = true ->
  refresh_lock (self s) = false ->
  let now := current_time_millis (env s) in
  let s0 :=
    on_self (fun m => with_refresh_lock true
               (with_last_refresh_time now (with_refresh_needed false m)))
      (snd (harvest_refresh_task (on_self (with_refresh_needed true) s))) in
  force_refresh_on_startup database_account s =
    match _endpoints_health_check s0 with
    | (Return _, s1) =>
        (Return tt,
         on_self (fun m => with_refresh_lock false (with_startup false m)) s1)
    | (Raise e, s1) => (Raise e, on_self (with_refresh_lock false) s1)
    | (Suspended, s1) => (Suspended, s1)
    end /\
  match force_refresh_on_startup database_account s with
  | (Return _, s') => startup (self s') = false /\ tasks s' = tasks s
  | (Raise _, s') => startup (self s') = true /\ tasks s' = tasks s
  | (Suspended, _) => False
  end.
Proof.
  intros Hstartup Hlock now s0.
  assert (Heq :
    force_refresh_on_startup database_account s =
      match _endpoints_health_check s0 with
      | (Return _, s1) =>
          (Return tt,
           on_self (fun m => with_refresh_lock false (with_startup false m)) s1)
      | (Raise e, s1) => (Raise e, on_self (with_refresh_lock false) s1)
      | (Suspended, s1) => (Suspended, s1)
      end).
  { subst s0 now.
    unfold force_refresh_on_startup, assign, modify.
    rewrite bind_run. rewrite bind_run.
    rewrite refresh_endpoint_list_steps.
    set (st := on_self (with_refresh_needed true) s).
    destruct (harvest_refresh_task_frame st) as (_ & Hself & Henv & Htasks).
    set (h := snd (harvest_refresh_task st)) in *.
    pose proof (Hself _ refresh_needed (fun _ _ => eq_refl)) as Hneeded.
    pose proof (Hself _ refresh_lock (fun _ _ => eq_refl)) as Hheld.
    pose proof (Hself _ startup (fun _ _ => eq_refl)) as Hstart.
    cbn in Hneeded, Hheld, Hstart, Henv.
    rewrite check_staleness_run.
    set (s1 := if _ >? _ then _ else h).
    assert (Hs1 : refresh_needed (self s1) = true /\
                  refresh_lock (self s1) = false /\
                  startup (self s1) = true /\
                  env s1 = env s /\
                  on_self (fun m => with_refresh_lock true
                             (with_last_refresh_time (current_time_millis (env s))
                                (with_refresh_needed false m))) s1 =
                  on_self (fun m => with_refresh_lock true
                             (with_last_refresh_time (current_time_millis (env s))
                                (with_refresh_needed false m))) h).
    { subst s1. destruct (_ >? _); cbn;
        rewrite ?Hneeded, ?Hheld, ?Hstart, ?Henv; repeat split; congruence. }
    destruct Hs1 as (Hn1 & Hl1 & Hst1 & He1 & Hsame).
    cbn [snd].
    rewrite (refresh_if_needed_in_startup database_account s1 Hn1 Hl1 Hst1).
    rewrite He1, Hsame.
    destruct (_endpoints_health_check _) as [[[]|x|] s2]; reflexivity. }
  split; [exact Heq|].
  rewrite Heq.
  destruct (_endpoints_health_check s0) as [r s1] eqn:Hround.
  apply endpoints_health_check_io in Hround.
  destruct Hround as [(c & d & e & ->) Hr].
  destruct (harvest_refresh_task_frame (on_self (with_refresh_needed true) s))
    as (_ & Hself & _ & Htasks).
  pose proof (Hself _ startup (fun _ _ => eq_refl)) as Hstart.
  destruct r as [[]|x|]; subst s0; cbn in *.
  - split; [reflexivity | exact Htasks].
  - split; [congruence | exact Htasks].
  - congruence.
Qed.

(** *** The background launch *)

Lemma refresh_if_needed_in_background (s : State) :
  refresh_needed (self s) = true ->
  refresh_lock (self s) = false ->
  startup (self s) = false ->
  refresh_if_needed None s =
    (Return tt,
     with_tasks (tasks s ++ [Running])
       (on_self (fun m => with_refresh_lock false
                   (with_refresh_task (Some (List.length (tasks s)))
                      (with_last_refresh_time (current_time_millis (env s))
                         (with_refresh_needed false m)))) s)).
Proof.
  intros Hneeded Hlock Hstartup.
  unfold refresh_if_needed, async_with_refresh_lock, refresh_under_lock,
    _refresh_endpoint_list_private, create_task. run.
  rewrite Hneeded, Hlock. cbn. rewrite Hneeded. cbn.
  repeat (progress (normal_state; rewrite ?Hstartup, ?Hneeded, ?orb_true_r)).
  reflexivity.
Qed.

(** *** Construction and the availability reports *)

(** C5 (as the code has it). As [__init__] leaves it, the manager has
    [refresh_needed] false, [last_refresh_time] at the epoch (0),
    [startup] true and no background task ([refresh_task] is [None]). *)
Theorem init_refresh_state (client : Client) :
  let m : _GlobalEndpointManager LC DatabaseAccount := __init__ client in
  refresh_needed m = false /\
  last_refresh_time m = 0 /\
  startup m = true /\
  refresh_task m = None.
Proof. cbn. repeat split. Qed.

(** C6 (as the code has it). [mark_endpoint_unavailable_for_read] and
    [mark_endpoint_unavailable_for_write] hand the endpoint and the flag
    to the Location Cache's operation of the same name and change nothing
    else: the manager's [refresh_needed] is as it was, whatever the
    flag. *)
Theorem mark_endpoint_unavailable_delegates
    (s : State) (ep : endpoint) (refresh_now : bool) :
  mark_endpoint_unavailable_for_read ep refresh_now s =
    (Return tt,
     on_self (with_location_cache
                (LocationCache.mark_endpoint_unavailable_for_read ep refresh_now
                   (location_cache (self s)))) s) /\
  mark_endpoint_unavailable_for_write ep refresh_now s =
    (Return tt,
     on_self (with_location_cache
                (LocationCache.mark_endpoint_unavailable_for_write ep refresh_now
                   (location_cache (self s)))) s) /\
  refresh_needed
    (self (snd (mark_endpoint_unavailable_for_read ep refresh_now s)))
  = refresh_needed (self s) /\
  refresh_needed
    (self (snd (mark_endpoint_unavailable_for_write ep refresh_now s)))
  = refresh_needed (self s).
Proof. repeat split. Qed.

(** *** The steps of [refresh_endpoint_list], case by case *)

Lemma before_refresh_frame (s : State) :
  let s1 := snd (check_staleness (snd (harvest_refresh_task s))) in
  (forall A (f : _GlobalEndpointManager LC DatabaseAccount -> A),
      (forall t m, f (with_refresh_task t m) = f m) ->
      (forall b m, f (with_refresh_needed b m) = f m) ->
      f (self s1) = f (self s)) /\
  env s1 = env s /\
  tasks s1 = tasks s /\
  refresh_needed (self s1) = refresh_needed (self s) || stale s.
Proof.
  cbv zeta.
  destruct (harvest_refresh_task_frame s) as (_ & Hself & Henv & Htasks).
  set (h := snd (harvest_refresh_task s)) in *.
  pose proof (Hself _ refresh_needed (fun _ _ => eq_refl)) as Hneeded.
  pose proof (Hself _ last_refresh_time (fun _ _ => eq_refl)) as Hlast.
  pose proof (Hself _ refresh_time_interval_in_ms (fun _ _ => eq_refl))
    as Hinterval.
  rewrite check_staleness_run. cbn [snd]. unfold stale.
  rewrite Henv, Hlast, Hinterval.
  destruct (_ >? _); cbn.
  - split; [|split; [exact Henv | split; [exact Htasks | now rewrite orb_true_r]]].
    intros A f Hf Hg. unfold on_self. cbn. rewrite Hg. now apply Hself.
  - split; [|split; [exact Henv | split; [exact Htasks | now rewrite orb_false_r]]].
    intros A f Hf Hg. now apply Hself.
Qed.

Lemma refresh_if_needed_idle
    (database_account : option DatabaseAccount) (s : State) :
  refresh_needed (self s) = false ->
  refresh_if_needed database_account s = (Return tt, s).
Proof.
  intros Hneeded. unfold refresh_if_needed. run. now rewrite Hneeded.
Qed.

Lemma refresh_if_needed_held
    (database_account : option DatabaseAccount) (s : State) :
  refresh_needed (self s) = true ->
  refresh_lock (self s) = true ->
  refresh_if_needed database_account s = (Suspended, s).
Proof.
  intros Hneeded Hlock.
  unfold refresh_if_needed, async_with_refresh_lock. run.
  now rewrite Hneeded, Hlock.
Qed.

Lemma refresh_if_needed_fast (account : DatabaseAccount) (s : State) :
  refresh_needed (self s) = true ->
  refresh_lock (self s) = false ->
  startup (self s) = false ->
  refresh_if_needed (Some account) s =
    (Return tt,
     on_self (fun m => with_refresh_lock false
                (with_last_refresh_time (current_time_millis (env s))
                   (with_refresh_needed false
                      (with_location_cache
                         (LocationCache.perform_on_database_account_read
                            account (location_cache m)) m)))) s).
Proof.
  intros Hneeded Hlock Hstartup.
  unfold refresh_if_needed, async_with_refresh_lock, refresh_under_lock,
    _refresh_endpoint_list_private. run.
  rewrite Hneeded, Hlock. cbn. rewrite Hneeded. cbn.
  repeat (progress (normal_state; rewrite ?Hstartup, ?Hneeded, ?orb_true_r)).
  reflexivity.
Qed.

(** What one pass through lines 112-120 keeps, whatever the case. *)
Lemma refresh_if_needed_invariants
    (database_account : option DatabaseAccount) (s s' : State) r :
  refresh_if_needed database_account s = (r, s') ->
  (PreferredLocations (self s') = PreferredLocations (self s) /\
   DefaultEndpoint (self s') = DefaultEndpoint (self s) /\
   refresh_time_interval_in_ms (self s')
   = refresh_time_interval_in_ms (self s)) /\
  (startup (self s) = false -> startup (self s') = false) /\
  (last_refresh_time (self s') = last_refresh_time (self s) \/
   last_refresh_time (self s') = current_time_millis (env s)) /\
  (tasks s' = tasks s \/
   (startup (self s) = false /\
    tasks s' = tasks s ++ [Running] /\
    refresh_task (self s') = Some (List.length (tasks s)))) /\
  (refresh_lock (self s) = false ->
   r <> Suspended /\ refresh_lock (self s') = false) /\
  (startup (self s) = false ->
   env s' = env s /\ forall e, r <> Raise e) /\
  (startup (self s) = true -> tasks s' = tasks s) /\
  log s' = log s.
Proof.
  intros Hrun.
  destruct (refresh_needed (self s)) eqn:Hneeded.
  2:{ rewrite refresh_if_needed_idle in Hrun by exact Hneeded.
      injection Hrun as <- <-.
      repeat split; auto; try discriminate. }
  destruct (refresh_lock (self s)) eqn:Hlock.
  { rewrite refresh_if_needed_held in Hrun by assumption.
    injection Hrun as <- <-.
    repeat split; auto; try discriminate. }
  destruct (startup (self s)) eqn:Hstartup.
  - rewrite refresh_if_needed_in_startup in Hrun by assumption.
    destruct (_endpoints_health_check _) as [r2 s2] eqn:Hround.
    apply endpoints_health_check_io in Hround.
    destruct Hround as [(c & d & e & ->) Hr2].
    destruct r2 as [[]|x|]; [| |congruence];
      injection Hrun as <- <-; cbn;
      repeat split; auto; try discriminate.
  - destruct database_account as [account|].
    + rewrite refresh_if_needed_fast in Hrun by assumption.
      injection Hrun as <- <-. cbn.
      repeat split; auto; try discriminate.
    + rewrite refresh_if_needed_in_background in Hrun by assumption.
      injection Hrun as <- <-. cbn.
      repeat split; auto; try discriminate.
Qed.

Lemma refresh_endpoint_list_invariants
    (database_account : option DatabaseAccount) (s s' : State) r :
  refresh_endpoint_list database_account s = (r, s') ->
  (PreferredLocations (self s') = PreferredLocations (self s) /\
   DefaultEndpoint (self s') = DefaultEndpoint (self s) /\
   refresh_time_interval_in_ms (self s')
   = refresh_time_interval_in_ms (self s)) /\
  (startup (self s) = false -> startup (self s') = false) /\
  (last_refresh_time (self s') = last_refresh_time (self s) \/
   last_refresh_time (self s') = current_time_millis (env s)) /\
  (tasks s' = tasks s \/
   (startup (self s) = false /\
    tasks s' = tasks s ++ [Running] /\
    refresh_task (self s') = Some (List.length (tasks s)))) /\
  (refresh_lock (self s) = false ->
   r <> Suspended /\ refresh_lock (self s') = false) /\
  (startup (self s) = false ->
   env s' = env s /\ forall e, r <> Raise e) /\
  (startup (self s) = true -> tasks s' = tasks s).
Proof.
  intros Hrun. rewrite refresh_endpoint_list_steps in Hrun.
  destruct (before_refresh_frame s) as (Hself & Henv & Htasks & _).
  cbv zeta in Hself.
  set (s1 := snd (check_staleness (snd (harvest_refresh_task s)))) in *.
  pose proof (Hself _ PreferredLocations (fun _ _ => eq_refl)
                (fun _ _ => eq_refl)) as H1.
  pose proof (Hself _ DefaultEndpoint (fun _ _ => eq_refl)
                (fun _ _ => eq_refl)) as H2.
  pose proof (Hself _ refresh_time_interval_in_ms (fun _ _ => eq_refl)
                (fun _ _ => eq_refl)) as H3.
  pose proof (Hself _ startup (fun _ _ => eq_refl) (fun _ _ => eq_refl)) as H4.
  pose proof (Hself _ last_refresh_time (fun _ _ => eq_refl)
                (fun _ _ => eq_refl)) as H5.
  pose proof (Hself _ refresh_lock (fun _ _ => eq_refl)
                (fun _ _ => eq_refl)) as H6.
  apply refresh_if_needed_invariants in Hrun.
  rewrite H1, H2, H3, H4, H5, H6, Henv, Htasks in Hrun.
  destruct Hrun as (Ha & Hb & Hc & Hd & He & Hf & Hg & _).
  repeat split; try tauto.
Qed.

Lemma refresh_endpoint_list_nothing_to_do
    (database_account : option DatabaseAccount) (s : State) :
  refresh_needed (self s) = false ->
  stale s = false ->
  refresh_endpoint_list database_account s =
    (Return tt, snd (harvest_refresh_task s)).
Proof.
  intros Hneeded Hstale. rewrite refresh_endpoint_list_steps.
  destruct (before_refresh_frame s) as (_ & _ & _ & Hflag). cbv zeta in Hflag.
  rewrite Hneeded, Hstale in Hflag. cbn in Hflag.
  rewrite refresh_if_needed_idle by exact Hflag.
  rewrite check_staleness_run. cbn [snd].
  destruct (harvest_refresh_task_frame s) as (_ & Hself & Henv & _).
  unfold stale in Hstale.
  rewrite Henv, (Hself _ last_refresh_time (fun _ _ => eq_refl)),
    (Hself _ refresh_time_interval_in_ms (fun _ _ => eq_refl)), Hstale.
  reflexivity.
Qed.

(** *** Shutdown, case by case *)

Lemma nth_error_replaced {A} (x : A) (l : list A) :
  forall n : nat,
    (n < List.length l)%nat ->
    nth_error (firstn n l ++ x :: skipn (S n) l) n = Some x.
Proof.
  induction l as [|a l IH]; intros [|n] Hn; cbn in *; try lia.
  - reflexivity.
  - apply IH. lia.
Qed.

Lemma nth_error_not_replaced {A} (x : A) (l : list A) :
  forall n m : nat,
    (n < List.length l)%nat ->
    m <> n ->
    nth_error (firstn n l ++ x :: skipn (S n) l) m = nth_error l m.
Proof.
  induction l as [|a l IH]; intros [|n] [|m] Hn Hm; cbn in *;
    try lia; try reflexivity.
  apply IH; lia.
Qed.

Lemma length_replaced {A} (x : A) (l : list A) :
  forall n : nat,
    (n < List.length l)%nat ->
    List.length (firstn n l ++ x :: skipn (S n) l) = List.length l.
Proof.
  induction l as [|a l IH]; intros [|n] Hn; cbn in *; try lia.
  f_equal. apply IH. lia.
Qed.

Lemma tasks_settled_length (s : State) (t : task_id) (r : response unit) :
  (t < List.length (tasks s))%nat ->
  List.length (tasks (settle_task t r s)) = List.length (tasks s).
Proof.
  intros Ht. unfold settle_task, with_tasks. cbn -[firstn skipn].
  now apply length_replaced.
Qed.

Lemma task_status_settled (s : State) (t : task_id) (r : response unit) :
  (t < List.length (tasks s))%nat ->
  task_status t (settle_task t r s) = Some (Done r).
Proof. intros Ht. unfold task_status, settle_task. cbn. now apply nth_error_replaced. Qed.

Lemma task_status_not_settled
    (s : State) (t t' : task_id) (r : response unit) :
  (t < List.length (tasks s))%nat ->
  t' <> t ->
  task_status t' (settle_task t r s) = task_status t' s.
Proof.
  intros Ht Hneq. unfold task_status, settle_task. cbn.
  now apply nth_error_not_replaced.
Qed.

Lemma task_status_in_table (s : State) (t : task_id) st :
  task_status t s = Some st -> (t < List.length (tasks s))%nat.
Proof.
  unfold task_status. intros H. apply nth_error_Some. congruence.
Qed.

Lemma close_run (s : State) :
  close s =
    match refresh_task (self s) with
    | None => (Return tt, s)
    | Some t =>
        match task_status t s with
        | Some Running =>
            (Return tt, settle_task t (Failure CancelledError) s)
        | Some (Done _) => (Return tt, s)
        | None => (Suspended, s)
        end
    end.
Proof.
  unfold close, cancel_task, await_task. run.
  destruct (refresh_task (self s)) as [t|]; cbn; [|reflexivity].
  destruct (task_status t s) as [[|[[]|x]]|] eqn:Hstatus; cbn;
    rewrite ?Hstatus; try reflexivity.
  rewrite task_status_settled by (eapply task_status_in_table; eassumption).
  reflexivity.
Qed.

(** *** What a call of [refresh_endpoint_list] keeps *)

(** X1. The refresh lock never outlives the call that took it: a call that
    finds the lock free does not park, and the lock is free again when the
    call ends, whether it returned or raised. *)
Theorem refresh_endpoint_list_releases_lock
    (database_account : option DatabaseAccount) (s : State) :
  refresh_lock (self s) = false ->
  fst (refresh_endpoint_list database_account s) <> Suspended /\
  refresh_lock (self (snd (refresh_endpoint_list database_account s))) = false.
Proof.
  intros Hlock.
  destruct (refresh_endpoint_list database_account s) as [r s'] eqn:Hrun.
  apply refresh_endpoint_list_invariants in Hrun. cbn [fst snd]. tauto.
Qed.

(** X2. When no refresh is flagged and the interval has not elapsed, the call
    only collects the finished background task, if any: it sends no
    request, creates no task, leaves the Location Cache and
    [last_refresh_time] alone, and does not wait for the lock even when
    another caller holds it.  The cache's own [should_refresh_endpoints]
    plays no part. *)
Theorem refresh_endpoint_list_not_due
    (database_account : option DatabaseAccount) (s : State) :
  refresh_needed (self s) = false ->
  stale s = false ->
  let out := refresh_endpoint_list database_account s in
  fst out = Return tt /\
  env (snd out) = env s /\
  tasks (snd out) = tasks s /\
  location_cache (self (snd out)) = location_cache (self s) /\
  last_refresh_time (self (snd out)) = last_refresh_time (self s) /\
  refresh_needed (self (snd out)) = false /\
  refresh_lock (self (snd out)) = refresh_lock (self s).
Proof.
  intros Hneeded Hstale out. subst out.
  rewrite refresh_endpoint_list_nothing_to_do by assumption. cbn [fst snd].
  destruct (harvest_refresh_task_frame s) as (_ & Hself & Henv & Htasks).
  rewrite (Hself _ location_cache (fun _ _ => eq_refl)),
    (Hself _ last_refresh_time (fun _ _ => eq_refl)),
    (Hself _ refresh_needed (fun _ _ => eq_refl)),
    (Hself _ refresh_lock (fun _ _ => eq_refl)).
  repeat split; auto.
Qed.

(** X3. A caller that finds a refresh due while the lock is held parks at the
    [async with]: before it gets the lock it has sent no request, created
    no task and touched neither the Location Cache nor
    [last_refresh_time]; [refresh_needed] is set. *)
Theorem refresh_endpoint_list_waits_for_lock
    (database_account : option DatabaseAccount) (s : State) :
  refresh_lock (self s) = true ->
  refresh_needed (self s) || stale s = true ->
  let out := refresh_endpoint_list database_account s in
  fst out = Suspended /\
  env (snd out) = env s /\
  tasks (snd out) = tasks s /\
  location_cache (self (snd out)) = location_cache (self s) /\
  last_refresh_time (self (snd out)) = last_refresh_time (self s) /\
  refresh_needed (self (snd out)) = true.
Proof.
  intros Hlock Hdue out. subst out.
  rewrite refresh_endpoint_list_steps.
  destruct (before_refresh_frame s) as (Hself & Henv & Htasks & Hflag).
  cbv zeta in Hself, Henv, Htasks, Hflag.
  set (s1 := snd (check_staleness (snd (harvest_refresh_task s)))) in *.
  rewrite Hdue in Hflag.
  rewrite refresh_if_needed_held;
    [| exact Hflag
     | rewrite (Hself _ refresh_lock (fun _ _ => eq_refl) (fun _ _ => eq_refl));
       exact Hlock].
  cbn [fst snd].
  rewrite (Hself _ location_cache (fun _ _ => eq_refl) (fun _ _ => eq_refl)),
    (Hself _ last_refresh_time (fun _ _ => eq_refl) (fun _ _ => eq_refl)).
  repeat split; auto.
Qed.

(** X4. While the manager is in startup a supplied snapshot is not used: the
    call does exactly what it does without one. *)
Theorem refresh_endpoint_list_in_startup_ignores_snapshot
    (account : DatabaseAccount) (s : State) :
  startup (self s) = true ->
  refresh_endpoint_list (Some account) s = refresh_endpoint_list None s.
Proof.
  intros Hstartup. rewrite !refresh_endpoint_list_steps.
  destruct (before_refresh_frame s) as (Hself & _). cbv zeta in Hself.
  set (s1 := snd (check_staleness (snd (harvest_refresh_task s)))) in *.
  pose proof (Hself _ startup (fun _ _ => eq_refl) (fun _ _ => eq_refl)) as Hs1.
  rewrite Hstartup in Hs1.
  destruct (refresh_needed (self s1)) eqn:Hneeded.
  - destruct (refresh_lock (self s1)) eqn:Hlock.
    + now rewrite !refresh_if_needed_held by assumption.
    + now rewrite !refresh_if_needed_in_startup by assumption.
  - now rewrite !refresh_if_needed_idle by assumption.
Qed.

(** X5. [last_refresh_time] is either left as it was or set to the clock of
    the call; with a clock that is not behind the last refresh it never
    moves backwards. *)
Theorem refresh_endpoint_list_stamps_now
    (database_account : option DatabaseAccount) (s : State) :
  let s' := snd (refresh_endpoint_list database_account s) in
  (last_refresh_time (self s') = last_refresh_time (self s) \/
   last_refresh_time (self s') = current_time_millis (env s)) /\
  (last_refresh_time (self s) <= current_time_millis (env s) ->
   last_refresh_time (self s) <= last_refresh_time (self s')).
Proof.
  cbv zeta.
  destruct (refresh_endpoint_list database_account s) as [r s'] eqn:Hrun.
  apply refresh_endpoint_list_invariants in Hrun. cbn [snd].
  destruct Hrun as (_ & _ & Hlast & _).
  split; [exact Hlast | intros Hclock; destruct Hlast as [-> | ->]; lia].
Qed.

(** X6. A call never removes or alters a task of the loop and launches at
    most one: the task table is as before, or one running task was added
    and [refresh_task] points at it, which happens only out of startup. *)
Theorem refresh_endpoint_list_launches_at_most_one_task
    (database_account : option DatabaseAccount) (s : State) :
  let s' := snd (refresh_endpoint_list database_account s) in
  tasks s' = tasks s \/
  (startup (self s) = false /\
   tasks s' = tasks s ++ [Running] /\
   refresh_task (self s') = Some (List.length (tasks s))).
Proof.
  cbv zeta.
  destruct (refresh_endpoint_list database_account s) as [r s'] eqn:Hrun.
  apply refresh_endpoint_list_invariants in Hrun. cbn [snd]. tauto.
Qed.

(** X7. The endpoint configuration is fixed for the life of the manager:
    neither [refresh_endpoint_list] nor [force_refresh_on_startup] nor
    [close] changes the default endpoint, the preferred locations or the
    refresh interval. *)
Theorem configuration_is_immutable
    (database_account : option DatabaseAccount) (s : State) :
  let same (s' : State) :=
    PreferredLocations (self s') = PreferredLocations (self s) /\
    DefaultEndpoint (self s') = DefaultEndpoint (self s) /\
    refresh_time_interval_in_ms (self s')
    = refresh_time_interval_in_ms (self s) in
  same (snd (refresh_endpoint_list database_account s)) /\
  same (snd (force_refresh_on_startup database_account s)) /\
  same (snd (close s)).
Proof.
  cbv zeta. split; [|split].
  - destruct (refresh_endpoint_list database_account s) as [r s'] eqn:Hrun.
    apply refresh_endpoint_list_invariants in Hrun. cbn [snd]. tauto.
  - unfold force_refresh_on_startup, assign, modify. rewrite !bind_run.
    destruct (refresh_endpoint_list database_account
                (on_self (with_refresh_needed true) s)) as [r s'] eqn:Hrun.
    apply refresh_endpoint_list_invariants in Hrun. cbn in Hrun.
    destruct Hrun as (Hsame & _).
    destruct r as [[]|x|]; cbn; exact Hsame.
  - rewrite close_run.
    destruct (refresh_task (self s)) as [t|]; [|auto].
    destruct (task_status t s) as [[|r]|]; auto.
Qed.

(** X8. Once startup is over it stays over: a call on a manager out of
    startup leaves it out of startup. *)
Theorem refresh_endpoint_list_never_reenters_startup
    (database_account : option DatabaseAccount) (s : State) :
  startup (self s) = false ->
  startup (self (snd (refresh_endpoint_list database_account s))) = false.
Proof.
  intros Hstartup.
  destruct (refresh_endpoint_list database_account s) as [r s'] eqn:Hrun.
  apply refresh_endpoint_list_invariants in Hrun. cbn [snd]. tauto.
Qed.

(** X9. Out of startup the call itself sends no request and raises no error:
    the environment is as the caller left it, and whatever the background
    round does later reaches no caller of [refresh_endpoint_list] as an
    exception. *)
Theorem refresh_endpoint_list_serving_never_raises
    (database_account : option DatabaseAccount) (s : State) :
  startup (self s) = false ->
  (forall e, fst (refresh_endpoint_list database_account s) <> Raise e) /\
  env (snd (refresh_endpoint_list database_account s)) = env s.
Proof.
  intros Hstartup.
  destruct (refresh_endpoint_list database_account s) as [r s'] eqn:Hrun.
  apply refresh_endpoint_list_invariants in Hrun. cbn [fst snd].
  destruct Hrun as (_ & _ & _ & _ & _ & Hserving & _).
  destruct (Hserving Hstartup) as [Henv Hr]. auto.
Qed.

(** *** Errors of the topology fetch *)

Lemma for_location_name_keeps_snapshot (locations : list location) :
  forall (s s' : State) r,
    for_location_name locations s = (r, s') ->
    (forall found, r <> Return (Some found)) ->
    _database_account_cache (self s') = _database_account_cache (self s).
Proof.
  induction locations as [|location_name rest IH]; intros s s' r Hrun Hnone.
  - cbn in Hrun. injection Hrun as <- <-. reflexivity.
  - cbn [for_location_name] in Hrun. run.
    destruct (GetDatabaseAccount _ (env s)) as [[a|x] e'] eqn:Hfetch.
    + cbn in Hrun. injection Hrun as <- <-.
      exfalso. eapply Hnone. reflexivity.
    + cbn in Hrun. destruct (is_cosmos_or_azure_error x); cbn in Hrun.
      * apply IH in Hrun; [exact Hrun | exact Hnone].
      * injection Hrun as <- <-. reflexivity.
Qed.

(** X10. A fetch that raises leaves the cached snapshot alone: whatever was in
    [_database_account_cache] before the call is still there. *)
Theorem GetDatabaseAccount_failure_keeps_snapshot
    (s s' : State) (e : exn) :
  _GetDatabaseAccount s = (Raise e, s') ->
  _database_account_cache (self s') = _database_account_cache (self s).
Proof.
  intros Hrun. unfold _GetDatabaseAccount in Hrun. run.
  destruct (GetDatabaseAccount _ (env s)) as [[a|x] e'] eqn:Hfetch.
  - cbn in Hrun. discriminate.
  - cbn in Hrun. destruct (is_cosmos_or_azure_error x); cbn in Hrun.
    + match type of Hrun with
      | context [for_location_name ?l ?st] =>
          destruct (for_location_name l st) as [found s1] eqn:Hloop
      end.
      destruct found as [[result|]|y|]; cbn in Hrun; try discriminate;
        injection Hrun as <- <-;
        (apply for_location_name_keeps_snapshot in Hloop;
         [exact Hloop | intros found; discriminate]).
    + injection Hrun as <- <-. reflexivity.
Qed.

Lemma for_location_name_cancelled (failed : list location) :
  forall (s : State) (location_name : location) (rest : list location)
         (envf env' : Env),
    let ep := LocationCache.GetLocationalEndpoint (DefaultEndpoint (self s)) in
    failed_fetches (map ep failed) (env s) = Some envf ->
    GetDatabaseAccount (ep location_name) envf = (Failure CancelledError, env') ->
    for_location_name (failed ++ location_name :: rest) s =
      (Raise CancelledError,
       after_io
         (all_marked_unavailable (map ep failed) (location_cache (self s)))
         (_database_account_cache (self s)) env' s).
Proof.
  induction failed as [|l failed IH];
    intros s location_name rest envf env' ep Hfail Hcancel.
  - cbn in Hfail. injection Hfail as <-.
    cbn [app for_location_name]. run. fold ep. rewrite Hcancel. cbn.
    destruct s as [[] ? ? ?]. reflexivity.
  - cbn [map failed_fetches] in Hfail. cbn [app for_location_name]. run.
    fold ep in Hfail |- *.
    destruct (GetDatabaseAccount (ep l) (env s)) as [[a|x] e'] eqn:Hfetch;
      [discriminate|].
    destruct (is_cosmos_or_azure_error x); [|discriminate].
    cbn. erewrite IH; [reflexivity | exact Hfail | exact Hcancel].
Qed.

(** X11. Cancellation is not a fetch failure.  A fetch cancelled at the default
    endpoint raises [CancelledError] at once: nothing is marked and no
    preferred location is asked.  A fetch cancelled at a preferred
    location raises [CancelledError] (not the error of the default
    endpoint): the locations that failed before it are marked, the one
    being asked is not, and no later location is asked. *)
Theorem GetDatabaseAccount_cancelled (s : State) :
  let d := DefaultEndpoint (self s) in
  let ep := LocationCache.GetLocationalEndpoint d in
  let c := location_cache (self s) in
  (forall env1,
      GetDatabaseAccount d (env s) = (Failure CancelledError, env1) ->
      _GetDatabaseAccount s = (Raise CancelledError, with_env env1 s)) /\
  (forall x env1 failed location_name rest envf env2,
      GetDatabaseAccount d (env s) = (Failure x, env1) ->
      is_cosmos_or_azure_error x = true ->
      PreferredLocations (self s) = failed ++ location_name :: rest ->
      failed_fetches (map ep failed) env1 = Some envf ->
      GetDatabaseAccount (ep location_name) envf
      = (Failure CancelledError, env2) ->
      _GetDatabaseAccount s =
        (Raise CancelledError,
         after_io (all_marked_unavailable (d :: map ep failed) c)
           (_database_account_cache (self s)) env2 s)).
Proof.
  intros d ep c. split.
  - intros env1 Hfetch. unfold _GetDatabaseAccount. run. fold d.
    rewrite Hfetch. reflexivity.
  - intros x env1 failed location_name rest envf env2 Hfetch Hx Hlocs Hfail
      Hcancel.
    unfold _GetDatabaseAccount. run. fold d. rewrite Hfetch, Hx. cbn.
    rewrite Hlocs.
    erewrite for_location_name_cancelled;
      [reflexivity | exact Hfail | exact Hcancel].
Qed.

(** *** Errors of the health-check round *)

(** X12. A total outage ends the round before anything else happens: when the
    default endpoint and every preferred location fail, the round raises
    the error of the default endpoint with all of them marked unavailable;
    no snapshot is ingested, no endpoint is probed and
    [update_location_cache] is not applied. *)
Theorem endpoints_health_check_exhausted
    (s : State) (x : exn) (env1 envf : Env) :
  let d := DefaultEndpoint (self s) in
  let ep := LocationCache.GetLocationalEndpoint d in
  GetDatabaseAccount d (env s) = (Failure x, env1) ->
  is_cosmos_or_azure_error x = true ->
  failed_fetches (map ep (PreferredLocations (self s))) env1 = Some envf ->
  _endpoints_health_check s =
    (Raise x,
     after_io
       (all_marked_unavailable (d :: map ep (PreferredLocations (self s)))
          (location_cache (self s)))
       (_database_account_cache (self s)) envf s).
Proof.
  intros d ep Hfetch Hx Hfail.
  unfold _endpoints_health_check. rewrite bind_run.
  unfold _GetDatabaseAccount. run. fold d. rewrite Hfetch, Hx. cbn.
  erewrite for_location_name_exhausted; [reflexivity | exact Hfail].
Qed.

(** *** Startup, again *)

(** X15. [force_refresh_on_startup] is synchronous only in startup.  Called
    without a snapshot on a manager that is already serving, it launches
    the health check as a background task and returns at once: the task
    is still running and no request has been sent when it returns. *)
Theorem force_refresh_after_startup_is_background (s : State) :
  startup (self s) = false ->
  refresh_lock (self s) = false ->
  let out := force_refresh_on_startup None s in
  fst out = Return tt /\
  tasks (snd out) = tasks s ++ [Running] /\
  refresh_task (self (snd out)) = Some (List.length (tasks s)) /\
  env (snd out) = env s /\
  location_cache (self (snd out)) = location_cache (self s).
Proof.
  intros Hstartup Hlock out. subst out.
  unfold force_refresh_on_startup, assign, modify. rewrite !bind_run.
  set (st := on_self (with_refresh_needed true) s).
  rewrite refresh_endpoint_list_steps.
  destruct (before_refresh_frame st) as (Hself & Henv & Htasks & Hflag).
  cbv zeta in Hself, Henv, Htasks, Hflag.
  set (s1 := snd (check_staleness (snd (harvest_refresh_task st)))) in *.
  pose proof (Hself _ startup (fun _ _ => eq_refl) (fun _ _ => eq_refl)) as Hs.
  pose proof (Hself _ refresh_lock (fun _ _ => eq_refl) (fun _ _ => eq_refl))
    as Hl.
  pose proof (Hself _ location_cache (fun _ _ => eq_refl) (fun _ _ => eq_refl))
    as Hc.
  cbn in Hs, Hl, Hc, Henv, Htasks, Hflag.
  rewrite refresh_if_needed_in_background by congruence.
  cbn. rewrite Htasks, Henv, Hc. repeat split.
Qed.

(** X16. A refresh that raises in startup is not retried at once: the flag was
    cleared and the time stamped before the probe, so the manager comes
    out of the failed call still in startup, with [refresh_needed] false
    and [last_refresh_time] at the clock of the call, and a call made
    within the refresh interval after it sends no request. *)
Theorem failed_startup_refresh_waits_for_interval
    (database_account : option DatabaseAccount) (s s' : State) (e : exn) :
  startup (self s) = true ->
  refresh_endpoint_list database_account s = (Raise e, s') ->
  (startup (self s') = true /\
   refresh_needed (self s') = false /\
   last_refresh_time (self s') = current_time_millis (env s)) /\
  (forall env' database_account',
      current_time_millis env' - current_time_millis (env s)
        <= refresh_time_interval_in_ms (self s) ->
      fst (refresh_endpoint_list database_account' (with_env env' s'))
      = Return tt /\
      env (snd (refresh_endpoint_list database_account' (with_env env' s')))
      = env').
Proof.
  intros Hstartup Hrun.
  assert (Hstate : startup (self s') = true /\
                   refresh_needed (self s') = false /\
                   last_refresh_time (self s') = current_time_millis (env s) /\
                   refresh_time_interval_in_ms (self s')
                   = refresh_time_interval_in_ms (self s)).
  { rewrite refresh_endpoint_list_steps in Hrun.
    destruct (before_refresh_frame s) as (Hself & Henv & _).
    cbv zeta in Hself, Henv.
    set (s1 := snd (check_staleness (snd (harvest_refresh_task s)))) in *.
    pose proof (Hself _ startup (fun _ _ => eq_refl) (fun _ _ => eq_refl))
      as Hs.
    pose proof (Hself _ refresh_time_interval_in_ms (fun _ _ => eq_refl)
                  (fun _ _ => eq_refl)) as Hi.
    rewrite Hstartup in Hs.
    destruct (refresh_needed (self s1)) eqn:Hneeded;
      [|rewrite refresh_if_needed_idle in Hrun by assumption; discriminate].
    destruct (refresh_lock (self s1)) eqn:Hlock;
      [rewrite refresh_if_needed_held in Hrun by assumption; discriminate|].
    rewrite refresh_if_needed_in_startup in Hrun by assumption.
    destruct (_endpoints_health_check _) as [r2 s2] eqn:Hround.
    apply endpoints_health_check_io in Hround.
    destruct Hround as [(c & d & e2 & ->) _].
    destruct r2 as [[]|x|]; try discriminate.
    injection Hrun as <- <-. cbn. rewrite Henv. auto. }
  destruct Hstate as (Hs' & Hn' & Hl' & Hi').
  split; [auto|].
  intros env' database_account' Hclock.
  assert (Hfresh : stale (with_env env' s') = false).
  { unfold stale. cbn. rewrite Hl', Hi', Z.gtb_ltb. apply Z.ltb_ge. lia. }
  rewrite refresh_endpoint_list_nothing_to_do by (cbn; assumption).
  cbn [fst snd].
  destruct (harvest_refresh_task_frame (with_env env' s')) as (_ & _ & Henv & _).
  split; [reflexivity | exact Henv].
Qed.

(** *** Collecting the background task *)

(** X17. A background round that has finished without error is collected by
    the next call: [refresh_task] is reset and nothing is logged. *)
Theorem refresh_endpoint_list_collects_finished_task
    (database_account : option DatabaseAccount) (s : State) (t : task_id) :
  refresh_task (self s) = Some t ->
  task_status t s = Some (Done (Success tt)) ->
  refresh_needed (self s) = false ->
  stale s = false ->
  refresh_endpoint_list database_account s =
    (Return tt, on_self (with_refresh_task None) s).
Proof.
  intros Hhandle Hstatus Hneeded Hstale.
  rewrite refresh_endpoint_list_nothing_to_do by assumption.
  now rewrite (harvest_finished_task s Hhandle Hstatus).
Qed.

(** *** Shutdown *)

(** X18. [close] returns without raising whatever the task did.  A tracked
    task that was still running is cancelled, one that had finished keeps
    its result, and in both cases it is no longer running when [close]
    returns.  The manager object (the handle included), the environment
    and the log are as before: the error of the task is neither raised
    nor logged. *)
Theorem close_cancels_tracked_task (s : State) :
  handle_valid s = true ->
  let s' := snd (close s) in
  fst (close s) = Return tt /\
  self s' = self s /\ env s' = env s /\ log s' = log s /\
  List.length (tasks s') = List.length (tasks s) /\
  (forall t, refresh_task (self s) = Some t ->
     task_status t s' =
       match task_status t s with
       | Some Running => Some (Done (Failure CancelledError))
       | other => other
       end /\
     task_status t s' <> Some Running) /\
  (refresh_task (self s) = None -> s' = s).
Proof.
  intros Hvalid. cbv zeta. rewrite close_run.
  unfold handle_valid in Hvalid.
  destruct (refresh_task (self s)) as [t|] eqn:Hhandle.
  - apply Nat.ltb_lt in Hvalid.
    destruct (task_status t s) as [[|r]|] eqn:Hstatus; cbn [fst snd].
    + split; [reflexivity|]. split; [reflexivity|]. split; [reflexivity|].
      split; [reflexivity|].
      split; [now apply tasks_settled_length|].
      split; [|discriminate].
      intros t' Ht'. injection Ht' as <-.
      rewrite Hstatus, task_status_settled by exact Hvalid.
      split; [reflexivity | discriminate].
    + split; [reflexivity|]. split; [reflexivity|]. split; [reflexivity|].
      split; [reflexivity|]. split; [reflexivity|].
      split; [|discriminate].
      intros t' Ht'. injection Ht' as <-. rewrite Hstatus.
      split; [reflexivity | discriminate].
    + apply nth_error_None in Hstatus. lia.
  - cbn [fst snd]. repeat split; auto; discriminate.
Qed.

(** X19. [close] reaches the task in [refresh_task] only: every other task of
    the loop, such as one launched earlier whose handle was overwritten,
    keeps running. *)
Theorem close_leaves_other_tasks (s : State) (t : task_id) :
  refresh_task (self s) <> Some t ->
  task_status t (snd (close s)) = task_status t s.
Proof.
  intros Hother. rewrite close_run.
  destruct (refresh_task (self s)) as [t0|]; [|reflexivity].
  destruct (task_status t0 s) as [[|r]|] eqn:Hstatus; try reflexivity.
  cbn [snd]. apply task_status_not_settled.
  - eapply task_status_in_table; eassumption.
  - congruence.
Qed.

(** X20. [close] does not reset [refresh_task].  If the manager is used again
    after closing a running task, the next [refresh_endpoint_list] collects
    the cancelled task as a failed health check: it logs [CancelledError],
    raises nothing, and the handle is still set. *)
Theorem refresh_after_close_logs_cancellation
    (database_account : option DatabaseAccount) (s : State) (t : task_id) :
  refresh_task (self s) = Some t ->
  task_status t s = Some Running ->
  refresh_needed (self s) = false ->
  stale s = false ->
  let closed := snd (close s) in
  refresh_endpoint_list database_account closed =
    (Return tt, with_log (log s ++ [CancelledError]) closed) /\
  refresh_task (self closed) = Some t.
Proof.
  intros Hhandle Hstatus Hneeded Hstale closed. subst closed.
  rewrite close_run, Hhandle, Hstatus. cbn [snd].
  set (c := settle_task t (Failure CancelledError) s).
  assert (Hc : task_status t c = Some (Done (Failure CancelledError))).
  { apply task_status_settled. eapply task_status_in_table; eassumption. }
  split; [|exact Hhandle].
  rewrite refresh_endpoint_list_nothing_to_do by (cbn; assumption).
  rewrite (@harvest_failed_task c t CancelledError Hhandle Hc). reflexivity.
Qed.

(** *** Coalescing of refresh requests *)







End Properties.

(** ** The manager on the concrete account *)

Import Scenario.

(** With the default endpoint unreachable and preferred locations
    ["West US"; "East US"] of which only East US answers, the fetch returns
    East US's snapshot and endpoint, the default endpoint and West US's are
    marked unavailable for read and for write, and the requests went to
    the default endpoint, West US and East US, in that order. *)
Lemma GetDatabaseAccount_fallback_order_witness :
  let out := _GetDatabaseAccount (fresh east_only) in
  let c := location_cache (self (snd out)) in
  fst out = Return (east_account, east) /\
  TableCache.mem default (TableCache.unavailable_for_read c) = true /\
  TableCache.mem default (TableCache.unavailable_for_write c) = true /\
  TableCache.mem west (TableCache.unavailable_for_read c) = true /\
  TableCache.mem west (TableCache.unavailable_for_write c) = true /\
  Network.requests (env (snd out)) = [default; west; east].
Proof.
  pose proof (GetDatabaseAccount_fallback_order (fresh east_only)) as H.
  cbv zeta in H. destruct H as [_ H].
  destruct (H AzureError (Network.sent default east_only) eq_refl eq_refl)
    as [Hwin _].
  rewrite (Hwin ["West US"%string] "East US"%string []
             (Network.sent west (Network.sent default east_only))
             (Network.sent east
                (Network.sent west (Network.sent default east_only)))
             east_account eq_refl eq_refl eq_refl).
  vm_compute. repeat split.
Defined.

Lemma GetDatabaseAccount_success_is_recorded_witness :
  let out := _GetDatabaseAccount (fresh east_only) in
  _database_account_cache (self (snd out)) = Some east_account /\
  (exists c, location_cache (self (snd out)) =
             LocationCache.mark_endpoint_available east c) /\
  (east = DefaultEndpoint (self (fresh east_only)) \/
   exists location_name,
     In location_name (PreferredLocations (self (fresh east_only))) /\
     east = LocationCache.GetLocationalEndpoint
              (DefaultEndpoint (self (fresh east_only))) location_name).
Proof.
  apply (@GetDatabaseAccount_success_is_recorded _ _ _ _ _
           (fresh east_only) (snd (_GetDatabaseAccount (fresh east_only)))
           east_account east).
  vm_compute. reflexivity.
Defined.

(** The round at startup with West US down: the default endpoint serves
    the snapshot, the probes of East US and West US complete in the
    reverse of the order in which they were started, the round returns,
    West US is marked unavailable and East US is not. *)
Lemma endpoints_health_check_batch_witness :
  let out := _endpoints_health_check (fresh west_down) in
  let c := location_cache (self (snd out)) in
  fst out = Return tt /\
  TableCache.unavailable_for_read c = [west] /\
  TableCache.unavailable_for_write c = [west] /\
  TableCache.read_endpoints c = [east] /\
  Network.requests (env (snd out)) = [default; west; east].
Proof.
  pose proof (@endpoints_health_check_batch _ _ _ _ _
                (fresh west_down)
                (snd (_GetDatabaseAccount (fresh west_down)))
                east_account default eq_refl) as H.
  cbv zeta in H.
  destruct (H [(west, Failure CosmosHttpResponseError); (east, Success tt)]
              (Network.sent east (Network.sent west
                 (Network.sent default west_down)))
              eq_refl eq_refl) as [_ Hround].
  rewrite Hround. vm_compute. repeat split.
Defined.

Lemma refresh_private_fast_path_witness :
  let out := _refresh_endpoint_list_private (Some east_account)
               (serving east_only) in
  fst out = Return tt /\
  location_cache (self (snd out)) =
    LocationCache.perform_on_database_account_read east_account
      (location_cache (self (serving east_only))) /\
  refresh_needed (self (snd out)) = false /\
  last_refresh_time (self (snd out)) = 1000 /\
  env (snd out) = east_only /\
  tasks (snd out) = [] /\
  refresh_task (self (snd out)) = None.
Proof.
  exact (@refresh_private_fast_path _ _ _ _ _ (serving east_only)
           east_account eq_refl).
Defined.

(** A serving manager asked to refresh at 400 s, with the last refresh at
    the epoch and an interval of 300 s, launches one background task. *)
Lemma refresh_endpoint_list_when_stale_witness :
  let s := serving (Network.at_time 400000 east_only) in
  current_time_millis (env s) - last_refresh_time (self s)
    > refresh_time_interval_in_ms (self s) /\
  refresh_lock (self s) = false /\
  fst (refresh_endpoint_list None s) = Return tt /\
  tasks (snd (refresh_endpoint_list None s)) = [Running] /\
  refresh_task (self (snd (refresh_endpoint_list None s))) = Some 0%nat.
Proof.
  cbv zeta.
  assert (Hstale :
    current_time_millis (env (serving (Network.at_time 400000 east_only)))
    - last_refresh_time (self (serving (Network.at_time 400000 east_only)))
    > refresh_time_interval_in_ms
        (self (serving (Network.at_time 400000 east_only))))
    by reflexivity.
  split; [exact Hstale|]. split; [reflexivity|].
  pose proof (@refresh_endpoint_list_when_stale _ _ _ _ _
                (serving (Network.at_time 400000 east_only)) None
                Hstale eq_refl) as H.
  cbv zeta in H. destruct H as (_ & Hslow & _).
  rewrite (Hslow eq_refl eq_refl). vm_compute. repeat split.
Defined.

(** The same call with a snapshot in hand: more than the interval has
    elapsed, yet no task is created and no request is sent. *)
Lemma refresh_endpoint_list_stale_with_snapshot_no_probe :
  let s := serving (Network.at_time 400000 east_only) in
  let s' := snd (refresh_endpoint_list (Some east_account) s) in
  current_time_millis (env s) - last_refresh_time (self s)
    > refresh_time_interval_in_ms (self s) /\
  ~ (tasks s' <> tasks s \/
     Network.requests (env s') <> Network.requests (env s) \/
     refresh_task (self s') <> None).
Proof.
  vm_compute. split; [reflexivity|].
  intros [H|[H|H]]; apply H; reflexivity.
Defined.

(** Startup with East US reachable: the refresh runs in the foreground
    and [startup] is cleared. *)
Lemma force_refresh_on_startup_outcome_witness :
  let out := force_refresh_on_startup None (fresh east_only) in
  fst out = Return tt /\
  startup (self (snd out)) = false /\
  tasks (snd out) = [].
Proof.
  pose proof (@force_refresh_on_startup_outcome _ _ _ _ _
                (fresh east_only) None eq_refl eq_refl) as H.
  cbv zeta in H. destruct H as [_ H].
  cbv zeta.
  destruct (force_refresh_on_startup None (fresh east_only)) as [[[]|x|] s']
    eqn:Hrun; vm_compute in Hrun; try discriminate.
  cbn [fst snd]. destruct H as [Hstartup Htasks].
  split; [reflexivity|]. split; [exact Hstartup | exact Htasks].
Defined.

(** Startup during a total outage: the refresh raises the error of the
    default endpoint and [startup] is not false afterwards. *)
Lemma force_refresh_on_startup_raise_keeps_startup :
  let out := force_refresh_on_startup None (fresh outage) in
  fst out = Raise AzureError /\
  startup (self (snd out)) <> false.
Proof.
  vm_compute. split; [reflexivity | discriminate].
Defined.



(** C4. The background task of [launched] ends with the error of the
    exhausted fallback.  The next [refresh_endpoint_list] collects it: the
    error is logged and not raised, but [refresh_task] still holds the
    finished task (only the success path of the [try] resets it), so the
    call after that logs the same error again. *)
Theorem harvest_failed_task_keeps_handle :
  let once := refresh_endpoint_list None task_failed in
  let twice := refresh_endpoint_list None (snd once) in
  refresh_task (self task_failed) = Some 0%nat /\
  task_status 0%nat task_failed = Some (Done (Failure AzureError)) /\
  fst once = Return tt /\
  log (snd once) = [AzureError] /\
  refresh_task (self (snd once)) = Some 0%nat /\
  log (snd twice) = [AzureError; AzureError].
Proof.
  vm_compute. repeat split.
Qed.

(** The manager the client constructor builds does not have
    [refresh_needed] set. *)
Lemma init_refresh_needed_is_false :
  ~ (refresh_needed manager = true /\
     last_refresh_time manager = 0 /\
     startup manager = true /\
     refresh_task manager = None).
Proof.
  intros [H _]. vm_compute in H. discriminate.
Defined.

(** Reporting West US unavailable with the flag set leaves
    [refresh_needed] false, and the next [refresh_endpoint_list] within
    the interval re-validates nothing. *)
Lemma mark_endpoint_unavailable_leaves_refresh_needed :
  let read := snd (mark_endpoint_unavailable_for_read west true
                     (serving east_only)) in
  let write := snd (mark_endpoint_unavailable_for_write west true
                      (serving east_only)) in
  refresh_needed (self read) <> true /\
  refresh_needed (self write) <> true /\
  refresh_endpoint_list None read = (Return tt, read) /\
  refresh_endpoint_list None write = (Return tt, write).
Proof.
  vm_compute. repeat split; discriminate.
Defined.

(** ** Further runs on the concrete account *)

(** The startup refresh at 400 s during the outage raises, and the lock
    is free afterwards. *)
Lemma refresh_endpoint_list_releases_lock_witness :
  fst (refresh_endpoint_list None (fresh (Network.at_time 400000 outage))) = Raise AzureError /\
  refresh_lock (self (snd (refresh_endpoint_list None (fresh (Network.at_time 400000 outage))))) = false.
Proof.
  destruct (@refresh_endpoint_list_releases_lock _ _ _ _ _ None
              (fresh (Network.at_time 400000 outage)) eq_refl) as [_ Hlock].
  split; [vm_compute; reflexivity | exact Hlock].
Defined.

Lemma refresh_endpoint_list_not_due_witness :
  let out := refresh_endpoint_list None (serving west_down) in
  fst out = Return tt /\
  env (snd out) = west_down /\
  tasks (snd out) = [] /\
  location_cache (self (snd out)) = location_cache (self (serving west_down)) /\
  last_refresh_time (self (snd out)) = 0 /\
  refresh_needed (self (snd out)) = false /\
  refresh_lock (self (snd out)) = false.
Proof.
  exact (@refresh_endpoint_list_not_due _ _ _ _ _ None (serving west_down)
           eq_refl eq_refl).
Defined.

Lemma refresh_endpoint_list_waits_for_lock_witness :
  let out := refresh_endpoint_list None lock_held in
  fst out = Suspended /\
  env (snd out) = env lock_held /\
  tasks (snd out) = [] /\
  location_cache (self (snd out)) = location_cache (self lock_held) /\
  last_refresh_time (self (snd out)) = 0 /\
  refresh_needed (self (snd out)) = true.
Proof.
  exact (@refresh_endpoint_list_waits_for_lock _ _ _ _ _ None lock_held
           eq_refl eq_refl).
Defined.

Lemma refresh_endpoint_list_in_startup_ignores_snapshot_witness :
  refresh_endpoint_list (Some east_account)
    (fresh (Network.at_time 400000 east_only))
  = refresh_endpoint_list None (fresh (Network.at_time 400000 east_only)).
Proof.
  exact (@refresh_endpoint_list_in_startup_ignores_snapshot _ _ _ _ _
           east_account (fresh (Network.at_time 400000 east_only)) eq_refl).
Defined.

Lemma refresh_endpoint_list_stamps_now_witness :
  let s := serving (Network.at_time 400000 east_only) in
  0 <= last_refresh_time (self (snd (refresh_endpoint_list None s))).
Proof.
  cbv zeta.
  destruct (@refresh_endpoint_list_stamps_now _ _ _ _ _ None
              (serving (Network.at_time 400000 east_only))) as [_ Hmono].
  apply Hmono. vm_compute. discriminate.
Defined.

Lemma refresh_endpoint_list_never_reenters_startup_witness :
  startup (self (snd (refresh_endpoint_list (Some east_account)
                        (serving (Network.at_time 400000 east_only)))))
  = false.
Proof.
  exact (@refresh_endpoint_list_never_reenters_startup _ _ _ _ _
           (Some east_account) (serving (Network.at_time 400000 east_only))
           eq_refl).
Defined.

(** A serving manager asked to refresh during the outage: the call
    returns, and no request has been sent. *)
Lemma refresh_endpoint_list_serving_never_raises_witness :
  let s := serving (Network.at_time 400000 outage) in
  (forall e, fst (refresh_endpoint_list None s) <> Raise e) /\
  Network.requests (env (snd (refresh_endpoint_list None s))) = [].
Proof.
  cbv zeta.
  destruct (@refresh_endpoint_list_serving_never_raises _ _ _ _ _ None
              (serving (Network.at_time 400000 outage)) eq_refl)
    as [Hraise Henv].
  split; [exact Hraise | rewrite Henv; reflexivity].
Defined.

Lemma GetDatabaseAccount_failure_keeps_snapshot_witness :
  _database_account_cache
    (self (snd (_GetDatabaseAccount (with_snapshot outage))))
  = Some east_account.
Proof.
  apply (@GetDatabaseAccount_failure_keeps_snapshot _ _ _ _ _
           (with_snapshot outage)
           (snd (_GetDatabaseAccount (with_snapshot outage))) AzureError).
  vm_compute. reflexivity.
Defined.

(** The fetch is cancelled while West US is asked: [CancelledError] is
    raised, only the default endpoint is marked, East US is not asked. *)
Lemma GetDatabaseAccount_cancelled_witness :
  let out := _GetDatabaseAccount (fresh cancelled_at_west) in
  fst out = Raise CancelledError /\
  TableCache.unavailable_for_read (location_cache (self (snd out)))
  = [default] /\
  Network.requests (env (snd out)) = [default; west].
Proof.
  pose proof (@GetDatabaseAccount_cancelled _ _ _ _ _
                (fresh cancelled_at_west)) as H.
  cbv zeta in H. destruct H as [_ H].
  rewrite (H AzureError (Network.sent default cancelled_at_west)
             [] "West US"%string ["East US"%string]
             (Network.sent default cancelled_at_west)
             (Network.sent west (Network.sent default cancelled_at_west))
             eq_refl eq_refl eq_refl eq_refl eq_refl).
  vm_compute. repeat split.
Defined.

Lemma endpoints_health_check_exhausted_witness :
  let out := _endpoints_health_check (fresh outage) in
  fst out = Raise AzureError /\
  TableCache.account (location_cache (self (snd out))) = None /\
  TableCache.unavailable_for_write (location_cache (self (snd out)))
  = [default; west; east].
Proof.
  cbv zeta.
  assert (Hdefault :
    GetDatabaseAccount (DefaultEndpoint (self (fresh outage)))
      (env (fresh outage))
    = (Failure AzureError, Network.sent default outage)) by reflexivity.
  assert (Hall :
    failed_fetches
      (map (LocationCache.GetLocationalEndpoint
              (DefaultEndpoint (self (fresh outage))))
         (PreferredLocations (self (fresh outage))))
      (Network.sent default outage)
    = Some (Network.sent east (Network.sent west
              (Network.sent default outage)))) by reflexivity.
  rewrite (@endpoints_health_check_exhausted _ _ _ _ _ (fresh outage)
             AzureError _ _ Hdefault eq_refl Hall).
  vm_compute. repeat split.
Defined.

Lemma force_refresh_after_startup_is_background_witness :
  let out := force_refresh_on_startup None (serving east_only) in
  fst out = Return tt /\
  tasks (snd out) = [Running] /\
  refresh_task (self (snd out)) = Some 0%nat /\
  env (snd out) = east_only /\
  location_cache (self (snd out)) = location_cache (self (serving east_only)).
Proof.
  exact (@force_refresh_after_startup_is_background _ _ _ _ _
           (serving east_only) eq_refl eq_refl).
Defined.

(** After the startup refresh has failed at 400 s, a call at 401 s sends no
    request, although the manager is still in startup. *)
Lemma failed_startup_refresh_waits_for_interval_witness :
  let failed := snd (refresh_endpoint_list None (fresh (Network.at_time 400000 outage))) in
  startup (self failed) = true /\
  fst (refresh_endpoint_list None
         (with_env (Network.at_time 401000 east_only) failed)) = Return tt /\
  env (snd (refresh_endpoint_list None
              (with_env (Network.at_time 401000 east_only) failed)))
  = Network.at_time 401000 east_only.
Proof.
  cbv zeta.
  assert (Hrun : refresh_endpoint_list None (fresh (Network.at_time 400000 outage))
                 = (Raise AzureError,
                    snd (refresh_endpoint_list None (fresh (Network.at_time 400000 outage)))))
    by (vm_compute; reflexivity).
  destruct (@failed_startup_refresh_waits_for_interval _ _ _ _ _ None
              (fresh (Network.at_time 400000 outage)) _ AzureError eq_refl Hrun)
    as [(Hstartup & _) Hlater].
  split; [exact Hstartup|].
  apply (Hlater (Network.at_time 401000 east_only) None).
  vm_compute. discriminate.
Defined.

Lemma refresh_endpoint_list_collects_finished_task_witness :
  refresh_endpoint_list None round_done =
    (Return tt, on_self (with_refresh_task None) round_done) /\
  log (snd (refresh_endpoint_list None round_done)) = [].
Proof.
  assert (Hstatus : task_status 0%nat round_done = Some (Done (Success tt)))
    by reflexivity.
  assert (Hfresh : stale round_done = false) by reflexivity.
  pose proof (@refresh_endpoint_list_collects_finished_task _ _ _ _ _ None
                round_done 0%nat eq_refl Hstatus eq_refl Hfresh) as H.
  rewrite H. split; reflexivity.
Defined.

(** Closing while the round launched at 400 s is running: the task ends
    cancelled and nothing is logged. *)
Lemma close_cancels_tracked_task_witness :
  fst (close slow_round) = Return tt /\
  tasks (snd (close slow_round)) = [Done (Failure CancelledError)] /\
  log (snd (close slow_round)) = [] /\
  in_flight (snd (close slow_round)) = 0%nat.
Proof.
  pose proof (close_cancels_tracked_task slow_round eq_refl) as H.
  cbv zeta in H. destruct H as (Hret & _ & _ & Hlog & _).
  split; [exact Hret|]. split; [reflexivity|]. split; [exact Hlog|].
  reflexivity.
Defined.

(** Closing after two rounds were launched: the first task, whose handle
    was overwritten, is still running. *)
Lemma close_leaves_other_tasks_witness :
  task_status 0%nat (snd (close asked_again)) = Some Running /\
  in_flight (snd (close asked_again)) = 1%nat.
Proof.
  split.
  - assert (Hother : refresh_task (self asked_again) <> Some 0%nat)
      by (vm_compute; discriminate).
    rewrite (close_leaves_other_tasks asked_again Hother). reflexivity.
  - reflexivity.
Defined.

Lemma refresh_after_close_logs_cancellation_witness :
  let closed := snd (close slow_round) in
  log (snd (refresh_endpoint_list None closed)) = [CancelledError] /\
  refresh_task (self closed) = Some 0%nat.
Proof.
  cbv zeta.
  assert (Hstatus : task_status 0%nat slow_round = Some Running)
    by reflexivity.
  assert (Hfresh : stale slow_round = false) by reflexivity.
  pose proof (@refresh_after_close_logs_cancellation _ _ _ _ _ None
                slow_round 0%nat eq_refl Hstatus eq_refl Hfresh) as H.
  cbv zeta in H. destruct H as [Hrun Hhandle].
  split; [rewrite Hrun; reflexivity | exact Hhandle].
Defined.
